(** * Overheard: the ranking and voting engine of [models.py]

    A shallow embedding of the datastore model ([Quote], [Vote], [Voter]),
    of the vote transaction [set_vote], of quote submission and deletion
    ([add_quote], [del_quote]) and of the two listings ([get_quotes_newest],
    [get_quotes]), followed by the properties proved about them.

    Modelling conventions.
    - Python integers are [Z]; Python byte strings are [string], compared
      bytewise (lexicographically), which is [String.compare].
    - The datastore is a record of finite maps, one per entity kind.  A
      [Vote] is keyed by its parent quote (if any) and its key name.
    - Functions that touch the datastore or memcache live in a small state
      and exception monad [M].  Every datastore or memcache call also
      appends an entry to the operation log [ops], so that "nothing was
      read or written" can be stated.
    - [db.run_in_transaction] rolls the datastore back when the transaction
      function raises.
    - The range and length validation the datastore library applies to
      property values (64 bit integers, 500 character strings) is not part
      of [models.py] and is not modelled; only [required=True] is. *)

From Stdlib Require Import ZArith Ascii String.
From stdpp Require Import base numbers option list sorting strings gmap fin_maps.

Local Open Scope Z_scope.

(** ** Constants *)

Definition PAGE_SIZE : Z := 20.
Definition DAY_SCALE : Z := 4.

(** ** Users, entities and keys *)

(** [users.User]: the model only needs [email()] and equality. *)
Record User := mkUser { email : string }.

#[global] Instance User_eq_dec : EqDecision User.
Proof. solve_decision. Defined.

(** [class Quote(db.Model)].  [rank] and [uri] have no default, so they are
    [None] until assigned. *)
Record Quote := mkQuote {
  quote : string;
  uri : option string;
  rank : option string;
  created : Z;
  creation_order : string;
  votesum : Z;
  creator : option User
}.

(** [class Vote(db.Model)], default [vote = 0]. *)
Record Vote := mkVote { vote : Z }.

(** [class Voter(db.Model)], defaults [0], [False], [False]. *)
Record Voter := mkVoter {
  count : Z;
  hasVoted : bool;
  hasAddedQuote : bool
}.

(** The key of a [Vote]: the id of the parent quote ([None] when the
    constructor was given [parent = None]) and the key name. *)
Definition VoteKey : Type := option Z * string.

(** Datastore and memcache calls, as recorded in the operation log. *)
Inductive Op :=
  | OpGetQuote (id : Z)
  | OpGetVote (k : VoteKey)
  | OpGetVoter (key_name : string)
  | OpPutQuote (id : Z)
  | OpPutVote (k : VoteKey)
  | OpPutVoter (key_name : string)
  | OpDeleteQuote (id : Z)
  | OpQueryNewest (bound : option string)
  | OpQueryRank (offset : Z)
  | OpMemcacheGet (key : string)
  | OpMemcacheSet (key : string).

(** The whole state: the three entity kinds, the id allocator of the
    datastore, memcache and the log. *)
Record Store := mkStore {
  quotes : gmap Z Quote;
  votes : gmap VoteKey Vote;
  voters : gmap string Voter;
  next_id : Z;
  memcache : gmap string Z;
  ops : list Op
}.

Definition empty_store : Store :=
  {| quotes := ∅; votes := ∅; voters := ∅; next_id := 1;
     memcache := ∅; ops := [] |}.

(** ** The state and exception monad *)

Inductive Exn :=
  | AttributeError
  | AssertionError
  | IndexError
  | BadValueError.

(** [db.Error] and its subclasses. *)
Definition is_db_Error (e : Exn) : bool :=
  match e with BadValueError => true | _ => false end.

Inductive Outcome (A : Type) :=
  | Returned (a : A)
  | Raised (e : Exn).
Arguments Returned {A} a.
Arguments Raised {A} e.

Definition M (A : Type) : Type := Store → Outcome A * Store.

Definition ret {A} (a : A) : M A := λ st, (Returned a, st).

Definition raise {A} (e : Exn) : M A := λ st, (Raised e, st).

Definition bind {A B} (m : M A) (f : A → M B) : M B :=
  λ st, match m st with
        | (Returned a, st') => f a st'
        | (Raised e, st') => (Raised e, st')
        end.

Declare Scope m_scope.
Delimit Scope m_scope with M.
Notation "x <- m ;; k" := (bind m (λ x, k))
  (at level 100, m at next level, right associativity) : m_scope.
Notation "m ;;; k" := (bind m (λ _, k))
  (at level 100, right associativity) : m_scope.
Local Open Scope m_scope.

Definition log (o : Op) : M unit :=
  λ st, (Returned tt,
         {| quotes := quotes st; votes := votes st; voters := voters st;
            next_id := next_id st; memcache := memcache st;
            ops := ops st ++ [o] |}).

(** [db.run_in_transaction(txn)]: when [txn] raises, the datastore part of
    the state is restored and the exception goes on to the caller.
    Memcache is not transactional, and the log keeps what was attempted. *)
Definition rollback (before after : Store) : Store :=
  {| quotes := quotes before; votes := votes before;
     voters := voters before; next_id := next_id before;
     memcache := memcache after; ops := ops after |}.

Definition run_in_transaction {A} (txn : M A) : M A :=
  λ st, match txn st with
        | (Returned a, st') => (Returned a, st')
        | (Raised e, st') => (Raised e, rollback st st')
        end.

(** [try: body except db.Error: handler]. *)
Definition try_except_db_Error {A} (body : M A) (handler : M A) : M A :=
  λ st, match body st with
        | (Raised e, st') =>
            if is_db_Error e then handler st' else (Raised e, st')
        | r => r
        end.

(** ** Datastore and memcache primitives *)

Definition Quote_get_by_id (id : Z) : M (option Quote) :=
  log (OpGetQuote id) ;;; λ st, (Returned (quotes st !! id), st).

Definition Vote_get_by_key_name (key_name : string) (parent : option Z)
  : M (option Vote) :=
  log (OpGetVote (parent, key_name)) ;;;
  λ st, (Returned (votes st !! (parent, key_name)), st).

Definition Voter_get_by_key_name (key_name : string) : M (option Voter) :=
  log (OpGetVoter key_name) ;;; λ st, (Returned (voters st !! key_name), st).

Definition put_quote (id : Z) (q : Quote) : M unit :=
  log (OpPutQuote id) ;;;
  λ st, (Returned tt,
         {| quotes := <[id := q]> (quotes st); votes := votes st;
            voters := voters st; next_id := next_id st;
            memcache := memcache st; ops := ops st |}).

Definition put_vote (k : VoteKey) (v : Vote) : M unit :=
  log (OpPutVote k) ;;;
  λ st, (Returned tt,
         {| quotes := quotes st; votes := <[k := v]> (votes st);
            voters := voters st; next_id := next_id st;
            memcache := memcache st; ops := ops st |}).

Definition put_voter (key_name : string) (v : Voter) : M unit :=
  log (OpPutVoter key_name) ;;;
  λ st, (Returned tt,
         {| quotes := quotes st; votes := votes st;
            voters := <[key_name := v]> (voters st); next_id := next_id st;
            memcache := memcache st; ops := ops st |}).

(** [q.put()] of an entity that has no key yet: the datastore allocates
    the next unused id, which is what [q.key().id()] then returns. *)
Definition put_new_quote (q : Quote) : M Z :=
  λ st, let id := next_id st in
        (Returned id,
         {| quotes := <[id := q]> (quotes st); votes := votes st;
            voters := voters st; next_id := id + 1;
            memcache := memcache st; ops := ops st ++ [OpPutQuote id] |}).

Definition delete_quote (id : Z) : M unit :=
  log (OpDeleteQuote id) ;;;
  λ st, (Returned tt,
         {| quotes := delete id (quotes st); votes := votes st;
            voters := voters st; next_id := next_id st;
            memcache := memcache st; ops := ops st |}).

Definition memcache_set (key : string) (val : Z) : M unit :=
  log (OpMemcacheSet key) ;;;
  λ st, (Returned tt,
         {| quotes := quotes st; votes := votes st; voters := voters st;
            next_id := next_id st; memcache := <[key := val]> (memcache st);
            ops := ops st |}).

Definition memcache_get (key : string) : M (option Z) :=
  log (OpMemcacheGet key) ;;; λ st, (Returned (memcache st !! key), st).

(** [user.email()] on a value that may be [None]. *)
Definition user_email (user : option User) : M string :=
  match user with
  | Some u => ret (email u)
  | None => raise AttributeError
  end.

(** ** Decimal rendering: [str(n)] and ["%020d" % n] *)

Definition digit_char (d : Z) : ascii := ascii_of_N (48 + Z.to_N d).

(** The decimal digits of a natural number, most significant first; one
    unit of fuel per digit. *)
Fixpoint str_digits (fuel : nat) (n : Z) : string :=
  match fuel with
  | O => ""
  | S fuel' =>
      if n <? 10 then String (digit_char n) ""
      else str_digits fuel' (n / 10) +:+ String (digit_char (n mod 10)) ""
  end.

Definition str_nat (n : Z) : string :=
  str_digits (S (Z.to_nat (Z.log2 n))) n.

(** [str(n)] for an [int] or [long]. *)
Definition str (n : Z) : string :=
  if n <? 0 then "-" +:+ str_nat (- n) else str_nat n.

Fixpoint zeros (k : nat) : string :=
  match k with
  | O => ""
  | S k' => String "0" (zeros k')
  end.

(** Left padding with zeros up to [width] characters; longer strings are
    left alone. *)
Definition zfill (width : nat) (s : string) : string :=
  zeros (width - String.length s) +:+ s.

(** ["%020d" % n]: the sign counts towards the width of 20. *)
Definition format_020d (n : Z) : string :=
  if n <? 0 then "-" +:+ zfill 19 (str_nat (- n)) else zfill 20 (str_nat n).

(** ["%020d|%s" % (long(created * DAY_SCALE + votesum), creation_order)],
    the expression assigned to [quote.rank] in [set_vote]. *)
Definition rank_of (created_ votesum_ : Z) (creation_order_ : string)
  : string :=
  format_020d (created_ * DAY_SCALE + votesum_) +:+ "|" +:+ creation_order_.


(** ** Voter records and progress flags *)

(** [_get_or_create_voter(user)]: the stored [Voter], or a fresh one with
    the defaults; the fresh one is not stored here. *)
Definition _get_or_create_voter (user : option User) : M Voter :=
  key_name <- user_email user ;;
  voter <- Voter_get_by_key_name key_name ;;
  match voter with
  | Some v => ret v
  | None => ret (mkVoter 0 false false)
  end.

(** [get_progress(user)]. *)
Definition get_progress (user : option User) : M (bool * bool) :=
  voter <- _get_or_create_voter user ;;
  ret (hasVoted voter, hasAddedQuote voter).

(** [_set_progress_hasVoted(user)]. *)
Definition _set_progress_hasVoted (user : option User) : M unit :=
  let txn : M unit :=
    voter <- _get_or_create_voter user ;;
    if negb (hasVoted voter) then
      key_name <- user_email user ;;
      put_voter key_name
        {| count := count voter; hasVoted := true;
           hasAddedQuote := hasAddedQuote voter |}
    else ret tt in
  run_in_transaction txn.

(** ** Quote submission *)

(** What [add_quote] reads from the clock: [now.isoformat()] and
    [(now - datetime.datetime(2008, 10, 1)).days]. *)
Record DateTime := mkDateTime {
  isoformat : string;
  days_since_epoch : Z
}.

Section Submission.

(** [hashlib.md5(s).hexdigest()]. *)
Variable md5_hexdigest : string → string.

(** The clock reading of [datetime.datetime.now()]. *)
Variable now : DateTime.

(** [_unique_user(user)]. *)
Definition _unique_user (user : option User) : M string :=
  let txn : M Z :=
    voter <- _get_or_create_voter user ;;
    let voter' :=
      {| count := count voter + 1; hasVoted := hasVoted voter;
         hasAddedQuote := true |} in
    key_name <- user_email user ;;
    put_voter key_name voter' ;;;
    ret (count voter') in
  count_ <- run_in_transaction txn ;;
  key_name <- user_email user ;;
  ret (md5_hexdigest (key_name +:+ "|" +:+ str count_)).

(** The constructor [Quote(quote=..., created=..., creator=...,
    creation_order=..., uri=...)]: [quote] is declared [required=True], so
    an empty text raises [BadValueError]; [rank] and [votesum] are not
    given and take their defaults [None] and [0]. *)
Definition new_Quote (text : string) (created_ : Z) (creator_ : option User)
    (creation_order_ : string) (uri_ : option string) : M Quote :=
  if decide (text = "") then raise BadValueError
  else ret {| quote := text; uri := uri_; rank := None; created := created_;
              creation_order := creation_order_; votesum := 0;
              creator := creator_ |}.

(** [add_quote(text, user, uri=None, _created=None)]: the id of the new
    quote, or [None] when a [db.Error] was raised. *)
Definition add_quote (text : string) (user : option User)
    (uri_ : option string) (_created : option Z) : M (option Z) :=
  try_except_db_Error
    (unique_user <- _unique_user user ;;
     let created_ :=
       match _created with
       | Some c => if decide (c = 0) then days_since_epoch now else c
       | None => days_since_epoch now
       end in
     q <- new_Quote text created_ user
            (String.substring 0 19 (isoformat now) +:+ "|" +:+ unique_user)
            uri_ ;;
     id <- put_new_quote q ;;
     ret (Some id))
    (ret None).

End Submission.

(** ** Quote deletion and lookup *)

(** [del_quote(quote_id, user)].  [users.is_current_user_admin()] is a
    property of the request being served; it is passed in. *)
Definition del_quote (is_current_user_admin : bool) (quote_id : Z)
    (user : option User) : M unit :=
  q <- Quote_get_by_id quote_id ;;
  match q with
  | Some q_ =>
      if is_current_user_admin || bool_decide (creator q_ = user)
      then delete_quote quote_id
      else ret tt
  | None => ret tt
  end.

(** [get_quote(quote_id)]. *)
Definition get_quote (quote_id : Z) : M (option Quote) :=
  Quote_get_by_id quote_id.

(** ** The vote transaction *)

(** The nested function [txn] of [set_vote], for a signed-in user [u].
    When no quote is stored under [quote_id], [quote] is [None]: the vote
    is then looked up and built without a parent, and the first attribute
    access [quote.votesum] raises [AttributeError]. *)
Definition set_vote_txn (quote_id : Z) (u : User) (newvote : Z) : M unit :=
  quote_ <- Quote_get_by_id quote_id ;;
  let parent := match quote_ with
                | Some _ => Some quote_id
                | None => None
                end in
  stored <- Vote_get_by_key_name (email u) parent ;;
  let vote_ := match stored with
               | Some v => v
               | None => mkVote 0
               end in
  if decide (vote vote_ = newvote) then ret tt
  else
    match quote_ with
    | None => raise AttributeError
    | Some q =>
        let q1 :=
          {| quote := quote q; uri := uri q; rank := rank q;
             created := created q;
             creation_order := creation_order q;
             votesum := votesum q - vote vote_ + newvote;
             creator := creator q |} in
        let vote' := mkVote newvote in
        let q2 :=
          {| quote := quote q1; uri := uri q1;
             rank := Some (rank_of (created q1) (votesum q1)
                             (creation_order q1));
             created := created q1;
             creation_order := creation_order q1;
             votesum := votesum q1; creator := creator q1 |} in
        put_vote (parent, email u) vote' ;;;
        put_quote quote_id q2 ;;;
        memcache_set ("vote|" +:+ email u +:+ "|" +:+ str quote_id)
          (vote vote')
    end.

(** [set_vote(quote_id, user, newvote)]. *)
Definition set_vote (quote_id : Z) (user : option User) (newvote : Z)
  : M unit :=
  match user with
  | None => ret tt
  | Some u =>
      run_in_transaction (set_vote_txn quote_id u newvote) ;;;
      _set_progress_hasVoted (Some u)
  end.

(** [voted(quote, user)]; the quote is given by its id. *)
Definition voted (quote_id : Z) (user : option User) : M Z :=
  match user with
  | None => ret 0
  | Some u =>
      let memcachekey := "vote|" +:+ email u +:+ "|" +:+ str quote_id in
      val <- memcache_get memcachekey ;;
      match val with
      | Some v => ret v
      | None =>
          stored <- Vote_get_by_key_name (email u) (Some quote_id) ;;
          match stored with
          | Some v => memcache_set memcachekey (vote v) ;;; ret (vote v)
          | None => ret 0
          end
      end
  end.

(** ** Listings *)

(** A query result: the id of the entity's key and the entity. *)
Definition Entity : Type := Z * Quote.

(** Datastore order on a [StringProperty] that may be unset: [None] sorts
    before every string, strings sort bytewise. *)
Definition rank_le (a b : option string) : Prop :=
  match a, b with
  | None, _ => True
  | Some _, None => False
  | Some x, Some y => String.le x y
  end.

#[global] Instance rank_le_dec : RelDecision rank_le.
Proof. intros [a|] [b|]; simpl; apply _. Defined.

(** [ORDER BY creation_order DESC]; entities with equal [creation_order]
    come in key order. *)
Definition newest_first (a b : Entity) : Prop :=
  (creation_order b.2 ≠ creation_order a.2
   ∧ String.le (creation_order b.2) (creation_order a.2))
  ∨ (creation_order a.2 = creation_order b.2 ∧ a.1 ≤ b.1).

#[global] Instance newest_first_dec : RelDecision newest_first.
Proof. intros a b. unfold newest_first. apply _. Defined.

(** [ORDER BY rank DESC]; entities with equal [rank] come in key order. *)
Definition highest_rank_first (a b : Entity) : Prop :=
  (rank b.2 ≠ rank a.2 ∧ rank_le (rank b.2) (rank a.2))
  ∨ (rank a.2 = rank b.2 ∧ a.1 ≤ b.1).

#[global] Instance highest_rank_first_dec : RelDecision highest_rank_first.
Proof. intros a b. unfold highest_rank_first. apply _. Defined.

(** All quotes, newest first. *)
Definition all_newest (qs : gmap Z Quote) : list Entity :=
  merge_sort newest_first (map_to_list qs).

(** All quotes, highest rank first. *)
Definition all_ranked (qs : gmap Z Quote) : list Entity :=
  merge_sort highest_rank_first (map_to_list qs).

(** [Quote.gql('ORDER BY creation_order DESC').fetch(limit)] and
    [Quote.gql('WHERE creation_order <= :1 ORDER BY creation_order DESC',
    bound).fetch(limit)]. *)
Definition select_newest (qs : gmap Z Quote) (bound : option string)
    (limit : Z) : list Entity :=
  let rows :=
    match bound with
    | None => all_newest qs
    | Some b => filter (λ e : Entity, String.le (creation_order e.2) b)
                  (all_newest qs)
    end in
  take (Z.to_nat limit) rows.

Definition query_newest (bound : option string) (limit : Z)
  : M (list Entity) :=
  log (OpQueryNewest bound) ;;;
  λ st, (Returned (select_newest (quotes st) bound limit), st).

(** [Quote.gql('ORDER BY rank DESC').fetch(limit, offset)]. *)
Definition select_ranked (qs : gmap Z Quote) (limit offset : Z)
  : list Entity :=
  take (Z.to_nat limit) (drop (Z.to_nat offset) (all_ranked qs)).

Definition query_rank (limit offset : Z) : M (list Entity) :=
  log (OpQueryRank offset) ;;;
  λ st, (Returned (select_ranked (quotes st) limit offset), st).

(** [l[-1]]. *)
Definition last_item {A} (l : list A) : M A :=
  match last l with
  | Some x => ret x
  | None => raise IndexError
  end.

(** [len(l)]. *)
Definition len {A} (l : list A) : Z := Z.of_nat (length l).

(** [get_quotes_newest(offset=None)]. *)
Definition get_quotes_newest (offset : option string)
  : M (list Entity * option string) :=
  quotes_ <- query_newest offset (PAGE_SIZE + 1) ;;
  if PAGE_SIZE <? len quotes_ then
    e <- last_item quotes_ ;;
    ret (take (Z.to_nat PAGE_SIZE) quotes_, Some (creation_order e.2))
  else ret (quotes_, None).

(** [assert cond]. *)
Definition assert (cond : bool) : M unit :=
  if cond then ret tt else raise AssertionError.

(** [get_quotes(page=0)]. *)
Definition get_quotes (page : Z) : M (list Entity * option Entity) :=
  assert (0 <=? page) ;;;
  assert (page <? 20) ;;;
  quotes_ <- query_rank (PAGE_SIZE + 1) (page * PAGE_SIZE) ;;
  if PAGE_SIZE <? len quotes_ then
    extra <- (if page <? 19 then e <- last_item quotes_ ;; ret (Some e)
              else ret None) ;;
    ret (take (Z.to_nat PAGE_SIZE) quotes_, extra)
  else ret (quotes_, None).

(** A reader that starts [get_quotes_newest] without an offset and follows
    every returned [extra] until none is returned; the pages it saw, in
    order.  [None] when [fuel] calls were not enough. *)
Fixpoint page_through_newest (fuel : nat) (offset : option string)
  : M (option (list (list Entity))) :=
  match fuel with
  | O => ret None
  | S fuel' =>
      r <- get_quotes_newest offset ;;
      match r.2 with
      | None => ret (Some [r.1])
      | Some extra =>
          rest <- page_through_newest fuel' (Some extra) ;;
          ret (option_map (cons r.1) rest)
      end
  end.

(** A sequence of [set_vote] calls on one quote, each by a signed-in
    user. *)
Fixpoint set_votes (quote_id : Z) (calls : list (User * Z)) : M unit :=
  match calls with
  | [] => ret tt
  | (u, v) :: rest => set_vote quote_id (Some u) v ;;; set_votes quote_id rest
  end.

(** ** Definitions used to state the properties *)

(** The value of the vote stored for a key name under a parent, an absent
    [Vote] counting as [0]. *)
Definition prior_vote (st : Store) (parent : option Z) (key_name : string)
  : Z :=
  match votes st !! (parent, key_name) with
  | Some v => vote v
  | None => 0
  end.

(** The value of the last call made by [key_name] in a sequence of calls,
    [0] when there is none. *)
Fixpoint last_vote (calls : list (User * Z)) (key_name : string) : Z :=
  match calls with
  | [] => 0
  | (u, v) :: rest =>
      if decide (key_name ∈ (email ∘ fst) <$> rest) then last_vote rest key_name
      else if decide (email u = key_name) then v
      else 0
  end.

(** The users that appear in a sequence of calls, each once. *)
Definition callers (calls : list (User * Z)) : list string :=
  remove_dups ((email ∘ fst) <$> calls).

(** Sum of [f] over a list. *)
Definition sum_over {A} (f : A → Z) (l : list A) : Z :=
  foldr (λ x acc, f x + acc) 0 l.

(** Sum of the values of all [Vote] entities whose parent is the quote
    [quote_id]. *)
Definition vote_total (vs : gmap VoteKey Vote) (quote_id : Z) : Z :=
  map_fold (λ (k : VoteKey) (v : Vote) acc,
              if decide (k.1 = Some quote_id) then vote v + acc else acc)
           0 vs.

(** Two states hold the same entities, ids and cache entries; only the
    operation log may differ. *)
Definition same_data (st st' : Store) : Prop :=
  quotes st' = quotes st ∧ votes st' = votes st ∧ voters st' = voters st
  ∧ next_id st' = next_id st ∧ memcache st' = memcache st.

(** Zero-padded decimal of fixed width, as the data model words it: the
    [width] low decimal digits of [n], most significant first. *)
Fixpoint fixed_digits (width : nat) (n : Z) : string :=
  match width with
  | O => ""
  | S w => fixed_digits w (n / 10) +:+ String (digit_char (n mod 10)) ""
  end.

(** Python's [a < b] on byte strings. *)
Definition str_lt (a b : string) : Prop := String.compare a b = Lt.

(** The quote as [set_vote] stores it when the vote of a user changes from
    [prior] to [newvote]. *)
Definition revoted (q : Quote) (prior newvote : Z) : Quote :=
  {| quote := quote q; uri := uri q;
     rank := Some (rank_of (created q) (votesum q - prior + newvote)
                     (creation_order q));
     created := created q; creation_order := creation_order q;
     votesum := votesum q - prior + newvote; creator := creator q |}.

(** Strictly descending [creation_order]: [a] comes strictly before [b]
    in the recency order. *)
Definition newer (a b : Entity) : Prop :=
  String.le (creation_order b.2) (creation_order a.2)
  ∧ creation_order b.2 ≠ creation_order a.2.

(** The [creation_order] values of the stored quotes are pairwise
    distinct. *)
Definition distinct_creation_order (qs : gmap Z Quote) : Prop :=
  NoDup ((λ e : Entity, creation_order e.2) <$> map_to_list qs).

(** Every page but the last has exactly [PAGE_SIZE] quotes; the last has
    at most that many. *)
Definition full_pages (pages : list (list Entity)) : Prop :=
  ∃ full final,
    pages = full ++ [final]
    ∧ Forall (λ p, len p = PAGE_SIZE) full
    ∧ len final ≤ PAGE_SIZE.

(** An offset is in step with position [k] of the recency order when it
    is absent at the start, or is the key of the row at position [k]. *)
Definition offset_at (l : list Entity) (k : nat) (offset : option string)
  : Prop :=
  (offset = None ∧ k = 0%nat)
  ∨ ∃ x, l !! k = Some x ∧ offset = Some (creation_order x.2).

(** Sample values used in the examples. *)
Definition fred : User := mkUser "fred@example.com".
Definition barney : User := mkUser "barney@example.com".
Definition clock : DateTime := mkDateTime "2008-10-02T10:11:12.123456" 1.

(** A stand-in for the digest in the examples: any function will do. *)
Definition sample_digest (s : string) : string := s.

(** Two quotes created on day 1 by [fred], voted down to -9 and -7. *)
Definition downvoted_store : Store :=
  ((add_quote sample_digest clock "q0" (Some fred) None (Some 1) ;;;
    add_quote sample_digest clock "q1" (Some fred) None (Some 1) ;;;
    set_vote 1 (Some fred) (-9) ;;;
    set_vote 2 (Some fred) (-7)) empty_store).2.

(** The loop of the paging test: [n] quotes added by one user. *)
Fixpoint add_quotes (n : nat) (user : option User) : M unit :=
  match n with
  | O => ret tt
  | S n' =>
      add_quote sample_digest clock "This is a test." user None None ;;;
      add_quotes n' user
  end.

(** [PAGE_SIZE + 1] quotes, none voted on. *)
Definition busy_store : Store := (add_quotes 21 (Some fred) empty_store).2.

(** ** Further definitions used to state properties *)

(** The memcache key of a user's vote on a quote, the expression
    ["vote|" + user.email() + "|" + str(quote_id)] of [set_vote] and
    [voted]. *)
Definition memcachekey_of (key_name : string) (quote_id : Z) : string :=
  "vote|" +:+ key_name +:+ "|" +:+ str quote_id.

(** The string hashed by [_unique_user]:
    [user.email() + "|" + str(count)]. *)
Definition unique_user_input (key_name : string) (count_ : Z) : string :=
  key_name +:+ "|" +:+ str count_.

(** Every character of a string satisfies a test. *)
Fixpoint string_forall (P : ascii → bool) (s : string) : bool :=
  match s with
  | "" => true
  | String c s' => P c && string_forall P s'
  end.

Definition is_digit (c : ascii) : bool :=
  (48 <=? N_of_ascii c)%N && (N_of_ascii c <=? 57)%N.

Definition is_bar (c : ascii) : bool := (N_of_ascii c =? 124)%N.

(** The number a string of decimal digits denotes, read left to right
    onto an accumulator. *)
Fixpoint digits_value (acc : Z) (s : string) : Z :=
  match s with
  | "" => acc
  | String c s' => digits_value (10 * acc + (Z.of_N (N_of_ascii c) - 48)) s'
  end.

(** The cache never contradicts the vote store: an entry under the key of
    a user and a quote holds the value of the [Vote] stored for them, an
    absent [Vote] counting as [0]. *)
Definition cache_coherent (st : Store) : Prop :=
  ∀ key_name quote_id v,
    memcache st !! memcachekey_of key_name quote_id = Some v →
    prior_vote st (Some quote_id) key_name = v.

(** The [Voter] of a key name as [_get_or_create_voter] sees it: the
    stored one, or the defaults. *)
Definition voter_of (st : Store) (key_name : string) : Voter :=
  match voters st !! key_name with
  | Some w => w
  | None => mkVoter 0 false false
  end.

(** Every stored quote has an id the allocator has already handed out. *)
Definition ids_allocated (st : Store) : Prop :=
  ∀ i q, quotes st !! i = Some q → i < next_id st.

(** A reader of the rank listing that starts at [page] and goes on to the
    next page for as long as [get_quotes] returns an [extra], as the links
    of the main page do; the pages it saw, in order.  [None] when [fuel]
    calls were not enough. *)
Fixpoint page_through_ranked (fuel : nat) (page : Z)
  : M (option (list (list Entity))) :=
  match fuel with
  | O => ret None
  | S fuel' =>
      r <- get_quotes page ;;
      match r.2 with
      | None => ret (Some [r.1])
      | Some _ =>
          rest <- page_through_ranked fuel' (page + 1) ;;
          ret (option_map (cons r.1) rest)
      end
  end.

(** The number a rank key encodes: [created * DAY_SCALE + votesum]. *)
Definition score (q : Quote) : Z := created q * DAY_SCALE + votesum q.

(** The stored rank key is the one computed from the stored [created],
    [votesum] and [creation_order]. *)
Definition rank_consistent (q : Quote) : Prop :=
  rank q = Some (rank_of (created q) (votesum q) (creation_order q)).

(** The scenario of the voting test: quotes 1 and 2 of day 1 with vote sums
    5 and 3, quote 3 of day 2 with vote sum 3, and quote 4 never voted
    on. *)
Definition voting_store : Store :=
  ((add_quote sample_digest clock "q0" (Some fred) None (Some 1) ;;;
    add_quote sample_digest clock "q1" (Some fred) None (Some 1) ;;;
    set_vote 1 (Some fred) 5 ;;;
    set_vote 2 (Some fred) 3 ;;;
    add_quote sample_digest clock "q2" (Some fred) None (Some 2) ;;;
    set_vote 3 (Some fred) 3 ;;;
    add_quote sample_digest clock "q3" (Some fred) None (Some 3))
     empty_store).2.

(** ** Sequences of calls *)

(** A call of one of the functions of [models.py] with its arguments;
    [ReqAddQuote] carries the clock reading and [ReqDelQuote] the
    administrator status of the request it is made in. *)
Inductive Request :=
  | ReqAddQuote (now : DateTime) (text : string) (user : option User)
      (uri_ : option string) (_created : option Z)
  | ReqDelQuote (is_admin : bool) (quote_id : Z) (user : option User)
  | ReqGetQuote (quote_id : Z)
  | ReqGetQuotesNewest (offset : option string)
  | ReqSetVote (quote_id : Z) (user : option User) (newvote : Z)
  | ReqGetQuotes (page : Z)
  | ReqVoted (quote_id : Z) (user : option User)
  | ReqGetProgress (user : option User).

(** The state a call leaves behind, whether it returned or raised. *)
Definition run_request (md5 : string → string) (r : Request) (st : Store)
  : Store :=
  match r with
  | ReqAddQuote now text user uri_ _created =>
      (add_quote md5 now text user uri_ _created st).2
  | ReqDelQuote is_admin quote_id user =>
      (del_quote is_admin quote_id user st).2
  | ReqGetQuote quote_id => (get_quote quote_id st).2
  | ReqGetQuotesNewest offset => (get_quotes_newest offset st).2
  | ReqSetVote quote_id user newvote => (set_vote quote_id user newvote st).2
  | ReqGetQuotes page => (get_quotes page st).2
  | ReqVoted quote_id user => (voted quote_id user st).2
  | ReqGetProgress user => (get_progress user st).2
  end.

Definition run_requests (md5 : string → string) (rs : list Request)
    (st : Store) : Store :=
  foldl (λ s r, run_request md5 r s) st rs.

(** The invariants of the data model: stored ids have been allocated,
    every vote hangs under an allocated quote id, every stored quote has
    [votesum] equal to the sum of its stored votes and a rank key that is
    either consistent or not yet set (with [votesum = 0]), and the cache
    agrees with the vote store. *)
Definition store_consistent (st : Store) : Prop :=
  ids_allocated st
  ∧ (∀ p e w, votes st !! (p, e) = Some w → ∃ i, p = Some i ∧ i < next_id st)
  ∧ (∀ i q, quotes st !! i = Some q → votesum q = vote_total (votes st) i)
  ∧ (∀ i q, quotes st !! i = Some q →
            rank_consistent q ∨ (rank q = None ∧ votesum q = 0))
  ∧ cache_coherent st.

(** Nothing a user has earned is lost: every [Voter] of [st] is still in
    [st'], with a counter at least as large and with every flag that was
    set still set. *)
Definition progress_kept (st st' : Store) : Prop :=
  ∀ e w, voters st !! e = Some w →
    ∃ w', voters st' !! e = Some w'
      ∧ count w ≤ count w'
      ∧ (hasVoted w = true → hasVoted w' = true)
      ∧ (hasAddedQuote w = true → hasAddedQuote w' = true).

(** ** The request handlers of [main.py]

    The handlers are modelled up to the rendering of templates: a handler
    returns the response it would write, with the dictionary of template
    values in place of the rendered page.  Request parameters that the
    handlers convert with [int] or [long] are taken as the converted
    numbers. *)

(** The double quote and newline characters of the HTML fragments. *)
Definition dquote : string := String (ascii_of_N 34) "".
Definition newline : string := String (ascii_of_N 10) "".

(** What a handler reads from the request it serves:
    [users.get_current_user()], [users.is_current_user_admin()] and the
    clock. *)
Record RequestContext := mkRequestContext {
  current_user : option User;
  current_user_admin : bool;
  request_time : DateTime
}.

(** One dictionary of [quote_for_template]. *)
Record TemplateQuote := mkTemplateQuote {
  tpl_id : Z;
  tpl_uri : option string;
  tpl_voted : Z;
  tpl_quote : string;
  tpl_creator : option User;
  tpl_created : string;
  tpl_created_long : string;
  tpl_votesum : Z;
  tpl_index : Z
}.

(** The dictionary built by [create_template_dict]. *)
Record TemplateValues := mkTemplateValues {
  tv_progress_id : Z;
  tv_progress_msg : string;
  tv_greeting : string;
  tv_loggedin : option User;
  tv_quotes : list TemplateQuote;
  tv_section : string;
  tv_nexturi : option string;
  tv_prevuri : option string
}.

(** The dictionary of the error page of [MainHandler.post]. *)
Record ErrorValues := mkErrorValues {
  ev_progress_id : Z;
  ev_progress_msg : string;
  ev_greeting : string;
  ev_loggedin : option User;
  ev_text : string;
  ev_uri : string;
  ev_error_msg : string
}.

Inductive Response :=
  | Redirect (location : string)
  | Render (template : string) (values : TemplateValues)
  | RenderFeed (template : string) (values : TemplateValues)
  | RenderError (template : string) (values : ErrorValues)
  | SetStatus (code : Z) (message : string)
  | EmptyResponse.

Section Handlers.

(** Library functions the handlers call. *)
Variable md5_hexdigest : string → string.
Variable nickname : User → string.
Variable create_logout_url : string → string.
Variable create_login_url : string → string.
Variable cgi_escape : string → string.
Variable strip : string → string.
Variable urlparse_scheme : string → string.
Variable urlparse_netloc : string → string.

Variable ctx : RequestContext.

(** [get_greeting()]. *)
Definition get_greeting : M (Z * string * string) :=
  let user := current_user ctx in
  let progress_id := 1 in
  let progress_msg := "You get one star just for showing up." in
  match user with
  | Some u =>
      let greeting :=
        nickname u +:+ " (<a class=" +:+ dquote +:+ "loggedin" +:+ dquote
        +:+ " href=" +:+ dquote +:+ cgi_escape (create_logout_url "/")
        +:+ dquote +:+ ">sign out</a>)" in
      let progress_id := 3 in
      let progress_msg := "One more star for logging in." in
      p <- get_progress user ;;
      let has_voted := p.1 in
      let has_added_quote := p.2 in
      let progress_id := if has_voted then Z.lor progress_id 4
                         else progress_id in
      let progress_msg := if has_voted then "" else progress_msg in
      let progress_id := if has_added_quote then Z.lor progress_id 8
                         else progress_id in
      let progress_msg := if has_added_quote then "" else progress_msg in
      ret (progress_id, progress_msg, greeting)
  | None =>
      let greeting :=
        "<a  href=" +:+ dquote +:+ cgi_escape (create_login_url "/")
        +:+ dquote +:+ ">Sign in to vote or add " +:+ newline
        +:+ "        your own quote</a>." in
      ret (progress_id, progress_msg, greeting)
  end.

(** The loop of [quote_for_template], with the running [index]. *)
Fixpoint quote_for_template_loop (quotes_ : list Entity)
    (user : option User) (index : Z) : M (list TemplateQuote) :=
  match quotes_ with
  | [] => ret []
  | e :: rest =>
      v <- voted e.1 user ;;
      let entry :=
        {| tpl_id := e.1; tpl_uri := uri e.2; tpl_voted := v;
           tpl_quote := quote e.2; tpl_creator := creator e.2;
           tpl_created := String.substring 0 10 (creation_order e.2);
           tpl_created_long := String.substring 0 19 (creation_order e.2);
           tpl_votesum := votesum e.2; tpl_index := index |} in
      entries <- quote_for_template_loop rest user (index + 1) ;;
      ret (entry :: entries)
  end.

(** [quote_for_template(quotes, user, page=0)]. *)
Definition quote_for_template (quotes_ : list Entity) (user : option User)
    (page : Z) : M (list TemplateQuote) :=
  quote_for_template_loop quotes_ user (1 + page * PAGE_SIZE).

(** [create_template_dict(user, quotes, section, nexturi, prevuri,
    page)]. *)
Definition create_template_dict (user : option User)
    (quotes_ : list Entity) (section : string)
    (nexturi prevuri : option string) (page : Z) : M TemplateValues :=
  g <- get_greeting ;;
  qs <- quote_for_template quotes_ user page ;;
  ret {| tv_progress_id := g.1.1; tv_progress_msg := g.1.2;
         tv_greeting := g.2; tv_loggedin := user; tv_quotes := qs;
         tv_section := section; tv_nexturi := nexturi;
         tv_prevuri := prevuri |}.

(** [MainHandler.get], for the page number [page] given by the request
    parameter [p]. *)
Definition MainHandler_get (page : Z) : M Response :=
  let user := current_user ctx in
  r <- get_quotes page ;;
  let nexturi := match r.2 with
                 | Some _ => Some ("/?p=" +:+ str (page + 1))
                 | None => None
                 end in
  let prevuri := if 1 <? page then Some ("/?p=" +:+ str (page - 1))
                 else if page =? 1 then Some "/"
                 else None in
  values <- create_template_dict user r.1 "Popular" nexturi prevuri page ;;
  ret (Render "templates/index.html" values).

(** [MainHandler.post], for the request parameters [newtidbit] and
    [tidbituri]. *)
Definition MainHandler_post (newtidbit tidbituri : string) : M Response :=
  let user := current_user ctx in
  let text := strip newtidbit in
  let text := if (500 <? String.length text)%nat
              then String.substring 0 500 text else text in
  if decide (text = "") then ret (Redirect "/")
  else
    let uri_ := strip tidbituri in
    g <- get_greeting ;;
    if negb (bool_decide (uri_ = ""))
       && (bool_decide (urlparse_scheme uri_ = "")
           || bool_decide (urlparse_netloc uri_ = ""))
    then
      ret (RenderError "templates/add_quote_error.html"
             {| ev_progress_id := g.1.1; ev_progress_msg := g.1.2;
                ev_greeting := g.2; ev_loggedin := user; ev_text := text;
                ev_uri := uri_;
                ev_error_msg :=
                  "The supplied link is not a valid absolute URI" |})
    else
      quote_id <- add_quote md5_hexdigest (request_time ctx) text user
                    (Some uri_) None ;;
      match quote_id with
      | Some id_ =>
          set_vote id_ user 1 ;;;
          ret (Redirect "/recent/")
      | None =>
          ret (RenderError "templates/add_quote_error.html"
                 {| ev_progress_id := g.1.1; ev_progress_msg := g.1.2;
                    ev_greeting := g.2; ev_loggedin := user;
                    ev_text := text; ev_uri := uri_;
                    ev_error_msg :=
                      "An error occured while adding this quote, please try again." |})
      end.

(** [VoteHandler.post], for the request parameters [quoteid] (as the
    number [long] makes of it) and [vote]. *)
Definition VoteHandler_post (quoteid : Z) (vote_ : string) : M Response :=
  match current_user ctx with
  | None => ret (SetStatus 403 "Forbidden")
  | Some u =>
      if bool_decide (vote_ = "1") || bool_decide (vote_ = "-1") then
        let v := if bool_decide (vote_ = "1") then 1 else -1 in
        set_vote quoteid (Some u) v ;;;
        ret EmptyResponse
      else ret (SetStatus 400 "Bad Request")
  end.

(** [RecentHandler.get], for the request parameters [offset] and [p]. *)
Definition RecentHandler_get (offset : string) (page : Z) : M Response :=
  let user := current_user ctx in
  let offset_ := if decide (offset = "") then None else Some offset in
  r <- get_quotes_newest offset_ ;;
  let nexturi :=
    match r.2 with
    | Some next =>
        if decide (next = "") then None
        else Some ("?offset=" +:+ next +:+ "&p=" +:+ str (page + 1))
    | None => None
    end in
  values <- create_template_dict user r.1 "Recent" nexturi None page ;;
  ret (Render "templates/recent.html" values).

(** [FeedHandler.get(section)]; [section.capitalize()] is written out in
    the two branches that reach it. *)
Definition FeedHandler_get (section : string) : M Response :=
  if decide (section = "recent") then
    r <- get_quotes_newest None ;;
    values <- create_template_dict None r.1 "Recent" None None 0 ;;
    ret (RenderFeed "templates/atom_feed.xml" values)
  else if decide (section = "popular") then
    r <- get_quotes 0 ;;
    values <- create_template_dict None r.1 "Popular" None None 0 ;;
    ret (RenderFeed "templates/atom_feed.xml" values)
  else ret (SetStatus 404 "Not Found").

(** [QuoteHandler.post(quoteid)]. *)
Definition QuoteHandler_post (quoteid : Z) : M Response :=
  del_quote (current_user_admin ctx) quoteid (current_user ctx) ;;;
  ret (Redirect "/").

(** [QuoteHandler.get(quoteid)]. *)
Definition QuoteHandler_get (quoteid : Z) : M Response :=
  q <- get_quote quoteid ;;
  match q with
  | None => ret (SetStatus 404 "Not Found")
  | Some q_ =>
      values <- create_template_dict (current_user ctx) [(quoteid, q_)]
                  "Quote" None None 0 ;;
      ret (Render "templates/singlequote.html" values)
  end.

End Handlers.

(** A call that only reads entities: quotes, votes, voters and ids are as
    before, and a cache that agreed with the vote store still does. *)
Definition entities_kept (st st' : Store) : Prop :=
  quotes st' = quotes st ∧ votes st' = votes st ∧ voters st' = voters st
  ∧ next_id st' = next_id st
  ∧ (cache_coherent st → cache_coherent st').

(** The vote of a possibly absent user on a quote, as stored. *)
Definition stored_vote (st : Store) (quote_id : Z) (user : option User)
  : Z :=
  match user with
  | Some u => prior_vote st (Some quote_id) (email u)
  | None => 0
  end.

(** The text [MainHandler.post] submits: the stripped parameter, cut to
    500 characters. *)
Definition submitted_text (strip : string → string) (newtidbit : string)
  : string :=
  if (500 <? String.length (strip newtidbit))%nat
  then String.substring 0 500 (strip newtidbit) else strip newtidbit.

(** The link [MainHandler.post] accepts: empty, or with a scheme and a
    network location. *)
Definition link_accepted (urlparse_scheme urlparse_netloc : string → string)
    (uri_ : string) : Prop :=
  uri_ = "" ∨ (urlparse_scheme uri_ ≠ "" ∧ urlparse_netloc uri_ ≠ "").

(** ** Sequences of requests to the site *)

(** The requests the application routes, with their parameters. *)
Inductive WebRequest :=
  | WebMainGet (page : Z)
  | WebMainPost (newtidbit tidbituri : string)
  | WebVotePost (quoteid : Z) (vote_ : string)
  | WebRecentGet (offset : string) (page : Z)
  | WebFeedGet (section : string)
  | WebQuotePost (quoteid : Z)
  | WebQuoteGet (quoteid : Z).

Section Site.

Variable md5_hexdigest : string → string.
Variable nickname : User → string.
Variable create_logout_url : string → string.
Variable create_login_url : string → string.
Variable cgi_escape : string → string.
Variable strip : string → string.
Variable urlparse_scheme : string → string.
Variable urlparse_netloc : string → string.

(** The routing table of [application]. *)
Definition serve (ctx : RequestContext) (r : WebRequest) : M Response :=
  match r with
  | WebMainGet page =>
      MainHandler_get nickname create_logout_url create_login_url cgi_escape
        ctx page
  | WebMainPost newtidbit tidbituri =>
      MainHandler_post md5_hexdigest nickname create_logout_url
        create_login_url cgi_escape strip urlparse_scheme urlparse_netloc
        ctx newtidbit tidbituri
  | WebVotePost quoteid vote_ => VoteHandler_post ctx quoteid vote_
  | WebRecentGet offset page =>
      RecentHandler_get nickname create_logout_url create_login_url
        cgi_escape ctx offset page
  | WebFeedGet section =>
      FeedHandler_get nickname create_logout_url create_login_url cgi_escape
        ctx section
  | WebQuotePost quoteid => QuoteHandler_post ctx quoteid
  | WebQuoteGet quoteid =>
      QuoteHandler_get nickname create_logout_url create_login_url
        cgi_escape ctx quoteid
  end.

(** The state after a sequence of requests, each served in its own
    context, whether the handler returned or raised. *)
Definition run_site (rs : list (RequestContext * WebRequest)) (st : Store)
  : Store :=
  foldl (λ s cr, (serve cr.1 cr.2 s).2) st rs.

End Site.

(** What holds of the data when every change goes through the handlers:
    the invariants of the data model, and moreover every stored quote has
    a consistent rank key, a text of 1 to 500 characters and a creator
    whose own vote on it is stored, and every stored vote is [1] or
    [-1]. *)
Definition site_consistent (st : Store) : Prop :=
  store_consistent st
  ∧ (∀ i q, quotes st !! i = Some q →
        rank_consistent q
        ∧ quote q ≠ ""
        ∧ (String.length (quote q) ≤ 500)%nat
        ∧ ∃ u, creator q = Some u
               ∧ is_Some (votes st !! (Some i, email u)))
  ∧ (∀ k w, votes st !! k = Some w → vote w = 1 ∨ vote w = -1).

(** * Properties *)

(** ** The monad and the primitives *)

Lemma same_data_refl st : same_data st st.
Proof. by repeat split. Qed.

Lemma same_data_trans st1 st2 st3 :
  same_data st1 st2 → same_data st2 st3 → same_data st1 st3.
Proof.
  intros (?&?&?&?&?) (?&?&?&?&?). repeat split; congruence.
Qed.

(** [_set_progress_hasVoted] of a signed-in user returns and touches the
    [Voter] kind only. *)
Lemma set_progress_hasVoted_spec u st :
  ∃ st', _set_progress_hasVoted (Some u) st = (Returned tt, st')
    ∧ quotes st' = quotes st ∧ votes st' = votes st
    ∧ next_id st' = next_id st ∧ memcache st' = memcache st.
Proof.
  unfold _set_progress_hasVoted, run_in_transaction, _get_or_create_voter,
    Voter_get_by_key_name, put_voter, user_email, bind, log, ret; cbn.
  destruct (voters st !! email u) as [v|]; cbn.
  - destruct (hasVoted v); cbn; eauto 10.
  - eauto 10.
Qed.

(** ** The vote transaction *)

(** A vote that differs from the stored one, on a live quote: both
    entities and the cache entry are written. *)
Lemma set_vote_changed qid u v st q :
  quotes st !! qid = Some q →
  prior_vote st (Some qid) (email u) ≠ v →
  ∃ st', set_vote qid (Some u) v st = (Returned tt, st')
    ∧ quotes st'
      = <[qid := revoted q (prior_vote st (Some qid) (email u)) v]> (quotes st)
    ∧ votes st' = <[(Some qid, email u) := mkVote v]> (votes st)
    ∧ next_id st' = next_id st
    ∧ memcache st'
      = <["vote|" +:+ email u +:+ "|" +:+ str qid := v]> (memcache st).
Proof.
  intros Hq Hne. unfold set_vote, bind.
  assert (∃ st1, run_in_transaction (set_vote_txn qid u v) st
                 = (Returned tt, st1)
            ∧ quotes st1
              = <[qid := revoted q (prior_vote st (Some qid) (email u)) v]>
                  (quotes st)
            ∧ votes st1 = <[(Some qid, email u) := mkVote v]> (votes st)
            ∧ next_id st1 = next_id st
            ∧ memcache st1
              = <["vote|" +:+ email u +:+ "|" +:+ str qid := v]> (memcache st))
    as (st1 & -> & E1 & E2 & E3 & E4).
  { unfold run_in_transaction, set_vote_txn, Quote_get_by_id,
      Vote_get_by_key_name, put_vote, put_quote, memcache_set, bind, log, ret.
    cbn. rewrite Hq. cbn. unfold prior_vote in Hne |- *.
    destruct (votes st !! (Some qid, email u)) as [w|]; cbn;
      (destruct (decide _) as [e|_]; [by destruct Hne|]);
      cbn; eexists; split; try reflexivity; cbn; done. }
  destruct (set_progress_hasVoted_spec u st1) as (st' & -> & ? & ? & ? & ?).
  exists st'. repeat split; congruence.
Qed.

(** A vote equal to the stored one (or [0] with none stored), on a live
    quote: nothing is written by the transaction. *)
Lemma set_vote_unchanged qid u v st q :
  quotes st !! qid = Some q →
  prior_vote st (Some qid) (email u) = v →
  ∃ st', set_vote qid (Some u) v st = (Returned tt, st')
    ∧ quotes st' = quotes st ∧ votes st' = votes st
    ∧ next_id st' = next_id st ∧ memcache st' = memcache st.
Proof.
  intros Hq He. unfold set_vote, bind.
  assert (∃ st1, run_in_transaction (set_vote_txn qid u v) st
                 = (Returned tt, st1)
            ∧ quotes st1 = quotes st ∧ votes st1 = votes st
            ∧ next_id st1 = next_id st ∧ memcache st1 = memcache st)
    as (st1 & -> & E1 & E2 & E3 & E4).
  { unfold run_in_transaction, set_vote_txn, Quote_get_by_id,
      Vote_get_by_key_name, bind, log, ret.
    cbn. rewrite Hq. cbn. unfold prior_vote in He.
    destruct (votes st !! (Some qid, email u)) as [w|]; cbn;
      (destruct (decide _) as [_|n]; [|by destruct n]);
      cbn; eexists; split; try reflexivity; cbn; done. }
  destruct (set_progress_hasVoted_spec u st1) as (st' & -> & ? & ? & ? & ?).
  exists st'. repeat split; congruence.
Qed.

(** A missing quote and a vote that differs from the one stored without a
    parent: the attribute access on [None] raises inside the transaction,
    which is rolled back; the progress flag is not reached. *)
Lemma set_vote_missing_raises qid u v st :
  quotes st !! qid = None →
  prior_vote st None (email u) ≠ v →
  ∃ st', set_vote qid (Some u) v st = (Raised AttributeError, st')
    ∧ same_data st st'.
Proof.
  intros Hq Hne. unfold set_vote, bind, run_in_transaction, set_vote_txn,
    Quote_get_by_id, Vote_get_by_key_name, bind, log, ret, raise.
  cbn. rewrite Hq. cbn. unfold prior_vote in Hne.
  destruct (votes st !! (None, email u)) as [w|]; cbn;
    (destruct (decide _) as [e|_]; [by destruct Hne|]);
    cbn; eexists; (split; [reflexivity|]); by repeat split.
Qed.

(** A missing quote and a vote equal to the one stored without a parent
    (or [0]): the transaction returns early and the progress flag is set. *)
Lemma set_vote_missing_returns qid u v st :
  quotes st !! qid = None →
  prior_vote st None (email u) = v →
  ∃ st', set_vote qid (Some u) v st = (Returned tt, st')
    ∧ quotes st' = quotes st ∧ votes st' = votes st
    ∧ next_id st' = next_id st ∧ memcache st' = memcache st.
Proof.
  intros Hq He. unfold set_vote, bind.
  assert (∃ st1, run_in_transaction (set_vote_txn qid u v) st
                 = (Returned tt, st1)
            ∧ quotes st1 = quotes st ∧ votes st1 = votes st
            ∧ next_id st1 = next_id st ∧ memcache st1 = memcache st)
    as (st1 & -> & E1 & E2 & E3 & E4).
  { unfold run_in_transaction, set_vote_txn, Quote_get_by_id,
      Vote_get_by_key_name, bind, log, ret.
    cbn. rewrite Hq. cbn. unfold prior_vote in He.
    destruct (votes st !! (None, email u)) as [w|]; cbn;
      (destruct (decide _) as [_|n]; [|by destruct n]);
      cbn; eexists; split; try reflexivity; cbn; done. }
  destruct (set_progress_hasVoted_spec u st1) as (st' & -> & ? & ? & ? & ?).
  exists st'. repeat split; congruence.
Qed.

(** With no quote under the id, neither path of [set_vote] writes a
    quote, a vote or a cache entry. *)
Lemma set_vote_missing_stores qid u v st :
  quotes st !! qid = None →
  quotes (set_vote qid (Some u) v st).2 = quotes st
  ∧ votes (set_vote qid (Some u) v st).2 = votes st
  ∧ next_id (set_vote qid (Some u) v st).2 = next_id st
  ∧ memcache (set_vote qid (Some u) v st).2 = memcache st.
Proof.
  intros Hq.
  destruct (decide (prior_vote st None (email u) = v)) as [He|Hne].
  - destruct (set_vote_missing_returns _ _ _ _ Hq He) as (st1 & -> & ?).
    by cbn.
  - destruct (set_vote_missing_raises _ _ _ _ Hq Hne)
      as (st1 & -> & (? & ? & ? & ? & ?)).
    by cbn.
Qed.

(** C10: [set_vote] called without a signed-in user ([user is None])
    returns at once and leaves the whole state as it was: no entity and no
    cache entry is read or written (the operation log is unchanged too),
    and no [hasVoted] flag is set. *)
Theorem set_vote_anonymous_noop (quote_id newvote : Z) (st : Store) :
  set_vote quote_id None newvote st = (Returned tt, st).
Proof. reflexivity. Qed.






(** C8: [del_quote] by a requester who is neither an administrator nor
    the creator of the quote, or on an id under which no quote is stored,
    returns normally and leaves every entity as it was: the quote, its
    [votesum] and its [rank] included. *)
Theorem del_quote_unauthorized_noop (is_admin : bool) (quote_id : Z)
    (user : option User) (st : Store) :
  (∀ q, quotes st !! quote_id = Some q →
        is_admin = false ∧ creator q ≠ user) →
  ∃ st', del_quote is_admin quote_id user st = (Returned tt, st')
    ∧ same_data st st'
    ∧ quotes st' !! quote_id = quotes st !! quote_id.
Proof.
  intros H. unfold del_quote, Quote_get_by_id, bind, log, ret. cbn.
  destruct (quotes st !! quote_id) as [q|] eqn:Hq; cbn.
  - destruct (H q eq_refl) as [-> Hc]. cbn.
    rewrite bool_decide_eq_false_2 by done.
    eexists. split; [reflexivity|]. cbn. split; [by repeat split|done].
  - eexists. split; [reflexivity|]. cbn. split; [by repeat split|done].
Qed.

Lemma del_quote_unauthorized_noop_witness :
  (∀ q, quotes downvoted_store !! 1 = Some q →
        false = false ∧ creator q ≠ Some barney)
  ∧ ∃ st', del_quote false 1 (Some barney) downvoted_store
           = (Returned tt, st')
      ∧ same_data downvoted_store st'
      ∧ quotes st' !! 1 = quotes downvoted_store !! 1.
Proof.
  assert (∀ q, quotes downvoted_store !! 1 = Some q →
               false = false ∧ creator q ≠ Some barney) as H.
  { intros q Hq. vm_compute in Hq. injection Hq as <-. split; [done|].
    cbn. intros [=]. }
  split; [exact H|].
  exact (del_quote_unauthorized_noop false 1 (Some barney) downvoted_store H).
Defined.

(** ** Quote submission *)




(** ** The rank listing *)

Lemma last_item_returns {A} (l : list A) st :
  l ≠ [] → ∃ x, last_item l st = (Returned x, st) ∧ last l = Some x.
Proof.
  intros Hl. unfold last_item. destruct (last l) as [x|] eqn:E.
  - by exists x.
  - apply last_None in E. done.
Qed.

(** C9: [get_quotes] checks [0 <= page < 20] before it queries.  Within
    the range both assertions pass and the call issues exactly one rank
    query and returns; outside it the call raises [AssertionError] with
    the state, operation log included, untouched: no query was issued. *)
Theorem get_quotes_page_range (page : Z) (st : Store) :
  (0 ≤ page < 20
   ∧ ∃ r st', get_quotes page st = (Returned r, st')
       ∧ ops st' = ops st ++ [OpQueryRank (page * PAGE_SIZE)]
       ∧ same_data st st')
  ∨ ((page < 0 ∨ 20 ≤ page)
     ∧ get_quotes page st = (Raised AssertionError, st)).
Proof.
  unfold get_quotes, assert, bind at 1 2.
  destruct (0 <=? page) eqn:H0; cbn.
  2: { right. split; [lia|reflexivity]. }
  destruct (page <? 20) eqn:H1; cbn.
  2: { right. split; [lia|reflexivity]. }
  left. split; [lia|].
  unfold query_rank, bind, log, ret. cbn.
  set (rows := select_ranked (quotes st) (PAGE_SIZE + 1) (page * PAGE_SIZE)).
  destruct (PAGE_SIZE <? len rows) eqn:Hlen.
  - destruct (page <? 19).
    + assert (rows ≠ []) as Hne.
      { intros E. rewrite E in Hlen. cbn in Hlen. done. }
      edestruct (last_item_returns rows) as (x & -> & _); [done|].
      eexists _, _. split; [reflexivity|]. cbn. split; [done|].
      by repeat split.
    + eexists _, _. split; [reflexivity|]. cbn. split; [done|].
      by repeat split.
  - eexists _, _. split; [reflexivity|]. cbn. split; [done|].
    by repeat split.
Qed.

(** ** Decimal rendering and the order of rank keys *)

Section Rendering.

Local Abbreviation slen := String.length.

Lemma string_app_cons x (a b : string) :
  String x a +:+ b = String x (a +:+ b).
Proof. reflexivity. Qed.

Lemma string_app_assoc (a b c : string) : (a +:+ b) +:+ c = a +:+ (b +:+ c).
Proof.
  induction a as [|x a IH]; [done|]. by rewrite !string_app_cons, IH.
Qed.

Lemma string_app_length (a b : string) :
  slen (a +:+ b) = (slen a + slen b)%nat.
Proof.
  induction a as [|x a IH]; [done|].
  rewrite string_app_cons. simpl. by rewrite IH.
Qed.

Lemma zeros_length k : slen (zeros k) = k.
Proof. induction k as [|k IH]; simpl; [done|]. by rewrite IH. Qed.

Lemma zeros_snoc k : zeros k +:+ "0" = zeros (S k).
Proof.
  induction k as [|k IH]; [done|].
  change (zeros (S k)) with (String "0" (zeros k)).
  by rewrite string_app_cons, IH.
Qed.

Lemma fixed_digits_length w n : slen (fixed_digits w n) = w.
Proof.
  revert n. induction w as [|w IH]; intros n; cbn; [done|].
  rewrite string_app_length, IH. cbn. lia.
Qed.

Lemma fixed_digits_zero w : fixed_digits w 0 = zeros w.
Proof.
  induction w as [|w IH]; [done|].
  cbn [fixed_digits]. change (0 / 10) with 0. rewrite IH.
  change (String (digit_char (0 `mod` 10)) "") with "0".
  apply zeros_snoc.
Qed.

(** With enough fuel, the digits of [n], padded with zeros to [w]
    characters, are the [w] low digits of [n]. *)
Lemma str_digits_padded w : ∀ fuel n,
  (1 ≤ w)%nat → (1 ≤ fuel)%nat →
  0 ≤ n < 10 ^ Z.of_nat w → n < 2 ^ Z.of_nat fuel →
  (slen (str_digits fuel n) ≤ w)%nat
  ∧ zeros (w - slen (str_digits fuel n)) +:+ str_digits fuel n
    = fixed_digits w n.
Proof.
  induction w as [|w IH]; intros fuel n Hw H1 Hn Hf; [lia|].
  destruct fuel as [|fuel]; [lia|].
  cbn [str_digits fixed_digits].
  destruct (n <? 10) eqn:H10.
  - apply Z.ltb_lt in H10. cbn [String.length]. split; [lia|].
    rewrite Z.div_small, Z.mod_small by lia.
    rewrite fixed_digits_zero. by replace (S w - 1)%nat with w by lia.
  - apply Z.ltb_ge in H10.
    assert (1 ≤ w)%nat as Hw'.
    { destruct w; [|lia]. cbn in Hn. lia. }
    assert (0 ≤ n / 10 < 10 ^ Z.of_nat w) as Hn'.
    { split; [apply Z.div_pos; lia|].
      apply Z.div_lt_upper_bound; [lia|].
      rewrite Nat2Z.inj_succ, Z.pow_succ_r in Hn by lia. lia. }
    assert (n / 10 < 2 ^ Z.of_nat fuel) as Hf'.
    { apply Z.div_lt_upper_bound; [lia|].
      rewrite Nat2Z.inj_succ, Z.pow_succ_r in Hf by lia. lia. }
    assert (1 ≤ fuel)%nat as H1'.
    { destruct fuel; [|lia]. cbn in Hf'. assert (1 ≤ n / 10); [|lia].
      apply Z.div_le_lower_bound; lia. }
    destruct (IH fuel (n / 10) Hw' H1' Hn' Hf') as [Hlen Heq].
    rewrite string_app_length. cbn [String.length]. split; [lia|].
    rewrite <- string_app_assoc, <- Heq.
    by replace (S w - (slen (str_digits fuel (n / 10)) + 1))%nat
      with (w - slen (str_digits fuel (n / 10)))%nat by lia.
Qed.

Lemma str_nat_fuel n : 0 ≤ n → n < 2 ^ Z.of_nat (S (Z.to_nat (Z.log2 n))).
Proof.
  intros Hn. rewrite Nat2Z.inj_succ, Z2Nat.id by apply Z.log2_nonneg.
  destruct (decide (n = 0)) as [->|Hne]; [done|].
  apply Z.log2_spec. lia.
Qed.

Lemma zfill_str_nat w n :
  (1 ≤ w)%nat → 0 ≤ n < 10 ^ Z.of_nat w →
  zfill w (str_nat n) = fixed_digits w n.
Proof.
  intros Hw Hn. unfold zfill, str_nat.
  apply str_digits_padded; [done|lia|done|]. apply str_nat_fuel. lia.
Qed.

(** ["%020d"] of a score in [[0, 10^20)] is its 20 decimal digits. *)
Lemma format_020d_nonneg n :
  0 ≤ n < 10 ^ 20 → format_020d n = fixed_digits 20 n.
Proof.
  intros Hn. unfold format_020d.
  destruct (n <? 0) eqn:E; [apply Z.ltb_lt in E; lia|].
  apply zfill_str_nat; [lia|]. exact Hn.
Qed.

(** ["%020d"] of a score in [(-10^19, 0)] is a minus sign and the 19
    decimal digits of its absolute value. *)
Lemma format_020d_neg n :
  - 10 ^ 19 < n < 0 → format_020d n = "-" +:+ fixed_digits 19 (- n).
Proof.
  intros Hn. unfold format_020d.
  destruct (n <? 0) eqn:E; [|apply Z.ltb_ge in E; lia].
  f_equal. apply zfill_str_nat; [lia|]. change (Z.of_nat 19) with 19. lia.
Qed.

Lemma string_compare_refl s : String.compare s s = Eq.
Proof.
  induction s as [|a s IH]; cbn; [done|].
  unfold Ascii.compare. by rewrite N.compare_refl.
Qed.

Lemma string_compare_app_same p a b :
  String.compare (p +:+ a) (p +:+ b) = String.compare a b.
Proof.
  induction p as [|x p IH]; [done|].
  rewrite !string_app_cons. cbn [String.compare].
  unfold Ascii.compare. by rewrite N.compare_refl.
Qed.

Lemma string_compare_app_lt a b c d :
  slen a = slen b → String.compare a b = Lt →
  String.compare (a +:+ c) (b +:+ d) = Lt.
Proof.
  revert b. induction a as [|x a IH]; intros [|y b] Hl Hc; try done.
  rewrite !string_app_cons. cbn [String.compare String.length] in *.
  destruct (Ascii.compare x y); try done.
  apply IH; [lia|done].
Qed.

Lemma digit_char_compare x y :
  0 ≤ x < 10 → 0 ≤ y < 10 → x < y →
  Ascii.compare (digit_char x) (digit_char y) = Lt.
Proof.
  intros Hx Hy Hxy. unfold Ascii.compare, digit_char.
  rewrite !N_ascii_embedding by lia.
  apply N.compare_lt_iff. lia.
Qed.

(** Fixed-width decimals compare bytewise as the numbers compare. *)
Lemma fixed_digits_lt w : ∀ a b,
  0 ≤ a → a < b → b < 10 ^ Z.of_nat w →
  str_lt (fixed_digits w a) (fixed_digits w b).
Proof.
  unfold str_lt.
  induction w as [|w IH]; intros a b Ha Hab Hb; [cbn in Hb; lia|].
  cbn [fixed_digits].
  rewrite Nat2Z.inj_succ, Z.pow_succ_r in Hb by lia.
  destruct (decide (a / 10 = b / 10)) as [E|Hne].
  - rewrite E, string_compare_app_same. cbn.
    rewrite digit_char_compare; [done| | |].
    + apply Z.mod_pos_bound; lia.
    + apply Z.mod_pos_bound; lia.
    + pose proof (Z.div_mod a 10). pose proof (Z.div_mod b 10). lia.
  - apply string_compare_app_lt.
    + by rewrite !fixed_digits_length.
    + apply IH.
      * apply Z.div_pos; lia.
      * assert (a / 10 ≤ b / 10) by (apply Z.div_le_mono; lia). lia.
      * apply Z.div_lt_upper_bound; lia.
Qed.

(** On scores from [0] up to [10^20] the rendering is strictly monotone. *)
Lemma format_020d_monotone_nonneg s1 s2 :
  0 ≤ s1 → s1 < s2 → s2 < 10 ^ 20 →
  str_lt (format_020d s1) (format_020d s2).
Proof.
  intros H1 H12 H2. rewrite !format_020d_nonneg by lia.
  by apply (fixed_digits_lt 20).
Qed.

(** On negative scores down to [-10^19] the rendering is strictly
    antitone: the smaller score gets the greater key. *)
Lemma format_020d_antitone_neg s1 s2 :
  - 10 ^ 19 < s1 → s1 < s2 → s2 < 0 →
  str_lt (format_020d s2) (format_020d s1).
Proof.
  intros H1 H12 H2. rewrite !format_020d_neg by lia.
  unfold str_lt. rewrite (string_compare_app_same "-").
  apply (fixed_digits_lt 19); [lia|lia|]. change (Z.of_nat 19) with 19. lia.
Qed.

End Rendering.

(** ** The rank key stored by a vote *)



(** ** Rank keys of negative scores *)

(** C4 at a failing input: two quotes of day 1 with vote sums [-9] and
    [-7] have the scores [-5 < -3], yet the key stored for [-5] is the
    greater one bytewise, and the rank listing puts the quote of score
    [-5] first. *)
Theorem rank_key_order_reversed_below_zero :
  ∃ qa qb ra rb,
    quotes downvoted_store !! 1 = Some qa
    ∧ quotes downvoted_store !! 2 = Some qb
    ∧ created qa * DAY_SCALE + votesum qa = -5
    ∧ created qb * DAY_SCALE + votesum qb = -3
    ∧ rank qa = Some ra ∧ rank qb = Some rb
    ∧ format_020d (-5) = "-0000000000000000005"
    ∧ format_020d (-3) = "-0000000000000000003"
    ∧ str_lt (format_020d (-3)) (format_020d (-5))
    ∧ str_lt rb ra
    ∧ (get_quotes 0 downvoted_store).1
      = Returned ([(1, qa); (2, qb)], None).
Proof. vm_compute. eexists _, _, _, _. repeat split; reflexivity. Qed.

(** ** Vote sums *)

Lemma sum_over_cons {A} (f : A → Z) (a : A) (l : list A) :
  sum_over f (a :: l) = f a + sum_over f l.
Proof. reflexivity. Qed.

Lemma sum_over_ext {A} (f g : A → Z) (l : list A) :
  (∀ x, x ∈ l → f x = g x) → sum_over f l = sum_over g l.
Proof.
  induction l as [|a l IH]; intros H; [done|]. rewrite !sum_over_cons.
  rewrite (H a) by left. rewrite IH; [done|].
  intros x Hx. apply H. by right.
Qed.

(** Changing the summand at one point of a duplicate-free list changes
    the sum by the difference at that point. *)
Lemma sum_over_update `{EqDecision A} (f g : A → Z) (l : list A) (x : A) :
  NoDup l → x ∈ l → (∀ y, y ∈ l → y ≠ x → g y = f y) →
  sum_over g l = sum_over f l + (g x - f x).
Proof.
  induction l as [|a l IH]; intros Hnd Hx Hother; [by inversion Hx|].
  apply NoDup_cons in Hnd as [Ha Hnd]. rewrite !sum_over_cons.
  destruct (decide (a = x)) as [->|Hne].
  - rewrite (sum_over_ext g f l); [lia|].
    intros y Hy. apply Hother; [by right|]. intros ->. done.
  - rewrite (Hother a) by (done || left).
    rewrite IH; [lia|done| |].
    + apply elem_of_cons in Hx as [->|Hx]; done.
    + intros y Hy. apply Hother. by right.
Qed.

Lemma vote_total_comm (qid : Z) (j1 j2 : VoteKey) (z1 z2 : Vote) (y : Z) :
  (if decide (j1.1 = Some qid) then vote z1 +
     (if decide (j2.1 = Some qid) then vote z2 + y else y)
   else if decide (j2.1 = Some qid) then vote z2 + y else y)
  = (if decide (j2.1 = Some qid) then vote z2 +
       (if decide (j1.1 = Some qid) then vote z1 + y else y)
     else if decide (j1.1 = Some qid) then vote z1 + y else y).
Proof. repeat case_decide; lia. Qed.

(** Storing the value [v] for a user under a quote moves the sum of the
    votes of that quote by [v] minus the value stored before. *)
Lemma vote_total_insert (vs : gmap VoteKey Vote) (qid : Z) (e : string)
    (v : Z) :
  vote_total (<[(Some qid, e) := mkVote v]> vs) qid
  = vote_total vs qid
    + (v - match vs !! (Some qid, e) with Some w => vote w | None => 0 end).
Proof.
  unfold vote_total.
  destruct (vs !! (Some qid, e)) as [w|] eqn:E.
  - rewrite <- (insert_delete_eq vs).
    rewrite map_fold_insert_L.
    + rewrite (map_fold_delete_L _ _ (Some qid, e) w vs).
      * cbn. rewrite !decide_True by done. cbn.
        set (T := map_fold _ 0 (delete _ vs)). clearbody T. lia.
      * intros. apply vote_total_comm.
      * done.
    + intros. apply vote_total_comm.
    + apply lookup_delete_eq.
  - rewrite map_fold_insert_L.
    + cbn. rewrite decide_True by done. cbn. lia.
    + intros. apply vote_total_comm.
    + done.
Qed.

(** One call on a live quote: it returns, [votesum] and the sum of the
    stored votes both move by [v] minus the caller's stored vote, and
    afterwards the caller's stored vote is [v]. *)
Lemma set_vote_step qid u v st q :
  quotes st !! qid = Some q →
  ∃ st' q',
    set_vote qid (Some u) v st = (Returned tt, st')
    ∧ quotes st' !! qid = Some q'
    ∧ votesum q' = votesum q + (v - prior_vote st (Some qid) (email u))
    ∧ vote_total (votes st') qid
      = vote_total (votes st) qid + (v - prior_vote st (Some qid) (email u))
    ∧ ∀ e, prior_vote st' (Some qid) e
           = if decide (e = email u) then v else prior_vote st (Some qid) e.
Proof.
  intros Hq.
  destruct (decide (prior_vote st (Some qid) (email u) = v)) as [He|Hne].
  - destruct (set_vote_unchanged _ _ _ _ _ Hq He)
      as (st' & E & Eq & Ev & _ & _).
    exists st', q. rewrite Eq, Ev. split; [done|]. split; [done|].
    split; [lia|]. split; [lia|].
    intros e. unfold prior_vote in *. rewrite Ev.
    case_decide; [by subst|done].
  - destruct (set_vote_changed _ _ _ _ _ Hq Hne)
      as (st' & E & Eq & Ev & _ & _).
    eexists st', _. split; [done|]. split; [rewrite Eq; apply lookup_insert_eq|].
    split; [cbn; lia|]. split.
    + rewrite Ev, vote_total_insert. done.
    + intros e. unfold prior_vote. rewrite Ev. case_decide as Hd.
      * subst e. by rewrite lookup_insert_eq.
      * rewrite lookup_insert_ne; [done|]. intros [=]. done.
Qed.

Lemma elem_of_callers calls e :
  e ∈ callers calls ↔ e ∈ (email ∘ fst) <$> calls.
Proof. unfold callers. apply elem_of_remove_dups. Qed.

Lemma callers_cons u v rest :
  callers ((u, v) :: rest)
  = if decide (email u ∈ (email ∘ fst) <$> rest) then callers rest
    else email u :: callers rest.
Proof.
  unfold callers. cbn. by destruct (decide_rel elem_of (email u) _).
Qed.

(** A sequence of calls on a live quote: every call returns, the quote
    stays live, [votesum] moves by the sum over the callers of latest
    minus stored value, the sum of the stored votes moves as [votesum]
    does, and the stored vote of every caller is their latest value. *)
Lemma set_votes_run qid calls : ∀ st q,
  quotes st !! qid = Some q →
  ∃ st' q',
    set_votes qid calls st = (Returned tt, st')
    ∧ quotes st' !! qid = Some q'
    ∧ votesum q'
      = votesum q
        + sum_over (λ e, last_vote calls e - prior_vote st (Some qid) e)
            (callers calls)
    ∧ vote_total (votes st') qid - votesum q'
      = vote_total (votes st) qid - votesum q
    ∧ ∀ e, prior_vote st' (Some qid) e
           = if decide (e ∈ callers calls) then last_vote calls e
             else prior_vote st (Some qid) e.
Proof.
  induction calls as [|[u v] rest IH]; intros st q Hq.
  - exists st, q. cbn. split; [done|]. split; [done|]. split; [lia|].
    split; [done|]. intros e. rewrite decide_False; [done|].
    apply not_elem_of_nil.
  - destruct (set_vote_step qid u v st q Hq)
      as (st1 & q1 & E1 & Hq1 & Hs1 & Ht1 & Hp1).
    destruct (IH st1 q1 Hq1) as (st' & q' & E & Hq' & Hs & Ht & Hp).
    exists st', q'.
    split. { cbn [set_votes]. unfold bind. by rewrite E1. }
    split; [done|].
    assert (∀ e, e ∈ callers rest →
                 last_vote ((u, v) :: rest) e = last_vote rest e) as Hlast.
    { intros e He. apply elem_of_callers in He. cbn [last_vote].
      by rewrite decide_True. }
    split; [|split; [lia|]].
    + rewrite Hs, Hs1, callers_cons.
      destruct (decide (email u ∈ (email ∘ fst) <$> rest)) as [Hin|Hnin].
      * rewrite (sum_over_update
                   (λ e, last_vote ((u, v) :: rest) e
                         - prior_vote st (Some qid) e)
                   (λ e, last_vote rest e - prior_vote st1 (Some qid) e)
                   (callers rest) (email u)).
        -- cbn beta. rewrite Hlast by by apply elem_of_callers.
           rewrite Hp1, decide_True by done. lia.
        -- apply NoDup_remove_dups.
        -- by apply elem_of_callers.
        -- intros y Hy Hne. cbn beta. rewrite Hlast by done.
           by rewrite Hp1, decide_False.
      * rewrite sum_over_cons. cbn [last_vote].
        rewrite decide_False, decide_True by done.
        rewrite (sum_over_ext
                   (λ e, last_vote rest e - prior_vote st1 (Some qid) e)
                   (λ e, (if decide (e ∈ (email ∘ fst) <$> rest)
                          then last_vote rest e
                          else if decide (email u = e) then v else 0)
                         - prior_vote st (Some qid) e)); [lia|].
        intros y Hy. apply elem_of_callers in Hy as Hy'.
        rewrite decide_True by done. rewrite Hp1, decide_False; [done|].
        by intros ->.
    + intros e. rewrite Hp, Hp1, callers_cons. cbn [last_vote].
      destruct (decide (e ∈ callers rest)) as [He|He].
      * rewrite (decide_True (P := e ∈ _ <$> rest))
          by by apply elem_of_callers.
        rewrite decide_True; [done|]. case_decide; [done|by right].
      * assert (e ∉ (email ∘ fst) <$> rest) as He'.
        { by rewrite <- elem_of_callers. }
        rewrite (decide_False (P := e ∈ _ <$> rest)) by done.
        destruct (decide (e = email u)) as [->|Hne].
        -- rewrite (decide_False (P := email u ∈ _ <$> rest)) by done.
           rewrite decide_True by left. by rewrite decide_True.
        -- rewrite decide_False; [done|].
           case_decide; [done|]. intros [?|?]%elem_of_cons; done.
Qed.



(** On a quote without votes and with [votesum = 0], the sequence leaves
    [votesum] equal to the sum over the callers of their latest value. *)
Lemma set_votes_fresh_quote (quote_id : Z) (calls : list (User * Z))
    (st : Store) (q : Quote) :
  quotes st !! quote_id = Some q →
  votesum q = 0 →
  (∀ e, votes st !! (Some quote_id, e) = None) →
  ∃ st' q',
    set_votes quote_id calls st = (Returned tt, st')
    ∧ quotes st' !! quote_id = Some q'
    ∧ votesum q' = sum_over (last_vote calls) (callers calls).
Proof.
  intros Hq H0 Hnone.
  destruct (set_votes_run quote_id calls st q Hq)
    as (st' & q' & ? & ? & Hs & _).
  exists st', q'. split; [done|]. split; [done|].
  rewrite Hs, H0. rewrite Z.add_0_l. apply sum_over_ext.
  intros e _. unfold prior_vote. rewrite Hnone. lia.
Qed.

Example set_votes_example :
  ∃ st' q',
    set_votes 1 [(barney, 1); (fred, -1); (barney, -1)] downvoted_store
    = (Returned tt, st')
    ∧ quotes st' !! 1 = Some q'
    ∧ votesum q' = -2
    ∧ sum_over (last_vote [(barney, 1); (fred, -1); (barney, -1)])
        (callers [(barney, 1); (fred, -1); (barney, -1)]) = -2.
Proof. vm_compute. eexists _, _. repeat split; reflexivity. Qed.

(** ** The recency listing *)

#[local] Instance newest_first_total : Total newest_first.
Proof.
  intros a b. unfold newest_first.
  destruct (decide (creation_order a.2 = creation_order b.2)) as [E|N].
  - destruct (Z.le_ge_cases a.1 b.1); [left|right]; right; split; done.
  - destruct (total String.le (creation_order b.2) (creation_order a.2));
      [left|right]; left; split; done.
Qed.

#[local] Instance newest_first_trans : Transitive newest_first.
Proof.
  intros a b c. unfold newest_first.
  intros [[N1 L1]|[E1 K1]] [[N2 L2]|[E2 K2]].
  - left. split; [|by etrans].
    intros E. apply N2. apply (anti_symm String.le); [done|by rewrite E].
  - left. by rewrite <- E2.
  - left. by rewrite E1.
  - right. split; [congruence|lia].
Qed.

Lemma all_newest_perm qs : all_newest qs ≡ₚ map_to_list qs.
Proof. apply merge_sort_Permutation. Qed.

(** With pairwise distinct [creation_order] values the recency order of
    all quotes is strictly descending. *)
Lemma all_newest_strict qs :
  distinct_creation_order qs → StronglySorted newer (all_newest qs).
Proof.
  unfold distinct_creation_order. rewrite <- (all_newest_perm qs).
  pose proof (StronglySorted_merge_sort newest_first (map_to_list qs)) as Hs.
  fold (all_newest qs) in Hs. revert Hs.
  induction (all_newest qs) as [|x l IH]; intros Hs Hnd; [constructor|].
  apply StronglySorted_cons in Hs as [Hx Hs].
  rewrite fmap_cons in Hnd. apply NoDup_cons in Hnd as [Hnx Hnd].
  apply StronglySorted_cons. split; [|by apply IH].
  apply Forall_forall. intros y Hy.
  rewrite Forall_forall in Hx. specialize (Hx y Hy).
  assert (creation_order y.2 ≠ creation_order x.2) as Hne.
  { intros E. apply Hnx. rewrite <- E.
    apply (list_elem_of_fmap_2 (λ e : Entity, creation_order e.2)). done. }
  unfold newer. destruct Hx as [[_ Hle]|[E _]]; [done|by destruct Hne].
Qed.

(** In a strictly descending list, the rows at or below the key of the
    row at position [k] are the rows from position [k] on. *)
Lemma filter_le_drop (l : list Entity) : ∀ k x,
  StronglySorted newer l → l !! k = Some x →
  filter (λ e : Entity, String.le (creation_order e.2) (creation_order x.2)) l
  = drop k l.
Proof.
  induction l as [|y l IH]; intros k x Hs Hk; [done|].
  apply StronglySorted_cons in Hs as [Hy Hs].
  rewrite Forall_forall in Hy.
  destruct k as [|k]; cbn in Hk.
  - injection Hk as ->. rewrite filter_cons_True by done. cbn. f_equal.
    clear IH Hs. induction l as [|z l IHl]; [done|].
    rewrite filter_cons_True.
    + f_equal. apply IHl. intros w Hw. apply Hy. by right.
    + apply Hy. left.
  - rewrite filter_cons_False.
    + cbn. by apply IH.
    + intros Hle. destruct (Hy x) as [Hle' Hne].
      * by eapply list_elem_of_lookup_2.
      * apply Hne. by apply (anti_symm String.le).
Qed.

(** The listing reads the quotes and writes only to the operation log. *)
Lemma get_quotes_newest_unfold offset st :
  get_quotes_newest offset st
  = let rows := select_newest (quotes st) offset (PAGE_SIZE + 1) in
    let st' := (log (OpQueryNewest offset) st).2 in
    if PAGE_SIZE <? len rows then
      match last rows with
      | Some e =>
          (Returned (take (Z.to_nat PAGE_SIZE) rows,
                     Some (creation_order e.2)), st')
      | None => (Raised IndexError, st')
      end
    else (Returned (rows, None), st').
Proof.
  unfold get_quotes_newest, query_newest, last_item, bind, ret, raise. cbn.
  destruct (PAGE_SIZE <? len _); [|done]. by destruct (last _).
Qed.

Lemma select_newest_at qs k offset :
  StronglySorted newer (all_newest qs) →
  offset_at (all_newest qs) k offset →
  select_newest qs offset (PAGE_SIZE + 1)
  = take 21 (drop k (all_newest qs)).
Proof.
  intros Hs [[-> ->]|(x & Hx & ->)]; unfold select_newest.
  - done.
  - by rewrite (filter_le_drop _ k x).
Qed.

Lemma full_pages_single (p : list Entity) :
  len p ≤ PAGE_SIZE → full_pages [p].
Proof. intros H. exists [], p. by repeat split. Qed.

Lemma full_pages_cons (p : list Entity) pages :
  len p = PAGE_SIZE → full_pages pages → full_pages (p :: pages).
Proof.
  intros H (full & final & -> & Hf & Hl).
  exists (p :: full), final. repeat split; [|done]. by constructor.
Qed.

(** Paging from position [k] of the recency order yields the rows from
    [k] on, cut into pages, provided the fuel exceeds their number. *)
Lemma page_through_newest_from qs :
  StronglySorted newer (all_newest qs) →
  ∀ fuel k offset st,
    quotes st = qs →
    offset_at (all_newest qs) k offset →
    (length (drop k (all_newest qs)) < fuel)%nat →
    ∃ pages st',
      page_through_newest fuel offset st = (Returned (Some pages), st')
      ∧ concat pages = drop k (all_newest qs)
      ∧ full_pages pages
      ∧ same_data st st'.
Proof.
  intros Hs. induction fuel as [|fuel IH]; intros k offset st Hqs Hoff Hlen;
    [lia|].
  cbn [page_through_newest]. unfold bind at 1.
  rewrite get_quotes_newest_unfold. cbn zeta.
  rewrite Hqs, (select_newest_at qs k offset Hs Hoff).
  set (rest := drop k (all_newest qs)) in *.
  set (st1 := (log (OpQueryNewest offset) st).2).
  assert (same_data st st1) as Hst1 by by repeat split.
  unfold len, PAGE_SIZE.
  destruct (decide (length rest ≤ 20)%nat) as [Hshort|Hlong].
  - rewrite take_ge by lia.
    replace (20 <? Z.of_nat (length rest)) with false
      by (symmetry; apply Z.ltb_ge; lia).
    cbn. exists [rest], st1. split; [done|]. split; [apply app_nil_r|].
    split; [|done]. apply full_pages_single. unfold len, PAGE_SIZE. lia.
  - assert (length (take 21 rest) = 21%nat) as H21.
    { rewrite length_take. lia. }
    replace (20 <? Z.of_nat (length (take 21 rest))) with true
      by (symmetry; apply Z.ltb_lt; lia).
    assert (∃ y, all_newest qs !! (k + 20)%nat = Some y) as [y Hy].
    { apply lookup_lt_is_Some. unfold rest in Hlong.
      rewrite length_drop in Hlong. lia. }
    assert (last (take 21 rest) = Some y) as ->.
    { rewrite last_lookup, H21. cbn [pred].
      rewrite lookup_take_lt by lia. unfold rest. by rewrite lookup_drop. }
    cbn [snd fst]. change (Z.to_nat 20) with 20%nat.
    rewrite take_take. change (20 `min` 21)%nat with 20%nat.
    destruct (IH (k + 20)%nat (Some (creation_order y.2)) st1)
      as (pages & st' & E & Hcat & Hfull & Hsame).
    { by destruct Hst1 as [-> _]. }
    { right. by exists y. }
    { rewrite length_drop. unfold rest in Hlen, Hlong.
      rewrite length_drop in Hlen, Hlong. lia. }
    unfold bind. rewrite E. cbn.
    exists (take 20 rest :: pages), st'. split; [done|]. split.
    + cbn [concat]. rewrite Hcat. unfold rest. rewrite <- drop_drop.
      apply take_drop.
    + split; [|by eapply same_data_trans].
      apply full_pages_cons; [|done].
      unfold len, PAGE_SIZE. rewrite length_take. lia.
Qed.

(** C6: when the stored quotes have pairwise distinct [creation_order]
    values and nothing else changes the store, a reader that calls
    [get_quotes_newest] without an offset and then with every returned
    [extra] ends after at most one call per stored quote plus one; the
    pages seen, put end to end, hold every stored quote exactly once, in
    strictly descending [creation_order]; every page but the last has
    exactly [PAGE_SIZE] quotes and the last has at most [PAGE_SIZE]. *)
Theorem get_quotes_newest_pages_cover (st : Store) :
  distinct_creation_order (quotes st) →
  ∃ pages st',
    page_through_newest (S (size (quotes st))) None st
    = (Returned (Some pages), st')
    ∧ concat pages ≡ₚ map_to_list (quotes st)
    ∧ NoDup (concat pages)
    ∧ (∀ i q, (i, q) ∈ concat pages ↔ quotes st !! i = Some q)
    ∧ StronglySorted newer (concat pages)
    ∧ full_pages pages
    ∧ same_data st st'.
Proof.
  intros Hd. pose proof (all_newest_strict _ Hd) as Hs.
  destruct (page_through_newest_from (quotes st) Hs
              (S (size (quotes st))) 0%nat None st)
    as (pages & st' & E & Hcat & Hfull & Hsame).
  { done. }
  { by left. }
  { rewrite drop_0, (Permutation_length (all_newest_perm (quotes st))).
    apply Nat.lt_succ_r, Nat.eq_le_incl, length_map_to_list. }
  rewrite drop_0 in Hcat.
  exists pages, st'. rewrite Hcat.
  split; [done|]. split; [apply all_newest_perm|].
  split. { rewrite all_newest_perm. apply NoDup_map_to_list. }
  split. { intros i q. rewrite all_newest_perm. apply elem_of_map_to_list. }
  done.
Qed.

Lemma get_quotes_newest_pages_cover_witness :
  distinct_creation_order (quotes busy_store)
  ∧ ∃ pages st',
      page_through_newest (S (size (quotes busy_store))) None busy_store
      = (Returned (Some pages), st')
      ∧ concat pages ≡ₚ map_to_list (quotes busy_store)
      ∧ NoDup (concat pages)
      ∧ (∀ i q, (i, q) ∈ concat pages ↔ quotes busy_store !! i = Some q)
      ∧ StronglySorted newer (concat pages)
      ∧ full_pages pages
      ∧ same_data busy_store st'.
Proof.
  assert (distinct_creation_order (quotes busy_store)) as Hd.
  { unfold distinct_creation_order.
    apply (bool_decide_unpack _). vm_compute. exact I. }
  split; [exact Hd|].
  exact (get_quotes_newest_pages_cover busy_store Hd).
Defined.

(** The paging test: 21 quotes come as a page of 20 and a page of 1, the
    newest first. *)
Example paging_newest_example :
  ∃ p1 p2 st',
    page_through_newest 3 None busy_store = (Returned (Some [p1; p2]), st')
    ∧ len p1 = 20 ∧ fst <$> p2 = [1].
Proof. vm_compute. eexists _, _, _. repeat split; reflexivity. Qed.

(** * Further properties *)

(** ** Decimal strings and the keys built from them *)

Lemma digit_char_code d : 0 ≤ d < 10 → N_of_ascii (digit_char d) = (48 + Z.to_N d)%N.
Proof. intros H. unfold digit_char. apply N_ascii_embedding. lia. Qed.

Lemma string_forall_app P a b :
  string_forall P (a +:+ b) = string_forall P a && string_forall P b.
Proof.
  induction a as [|c a IH]; [done|].
  rewrite string_app_cons. cbn [string_forall]. rewrite IH.
  by rewrite andb_assoc.
Qed.

Lemma str_digits_all_digits fuel : ∀ n,
  0 ≤ n → string_forall is_digit (str_digits fuel n) = true.
Proof.
  induction fuel as [|fuel IH]; intros n Hn; [done|].
  cbn [str_digits]. destruct (n <? 10) eqn:E.
  - apply Z.ltb_lt in E. cbn [string_forall]. unfold is_digit.
    rewrite digit_char_code by lia. rewrite andb_true_r.
    apply andb_true_intro. split; apply N.leb_le; lia.
  - rewrite string_forall_app, IH by (apply Z.div_pos; lia).
    cbn [string_forall]. unfold is_digit.
    pose proof (Z.mod_pos_bound n 10 ltac:(lia)).
    rewrite digit_char_code by lia. rewrite andb_true_r. cbn [andb].
    apply andb_true_intro. split; apply N.leb_le; lia.
Qed.

Lemma str_digits_nonempty fuel n : str_digits (S fuel) n ≠ "".
Proof.
  cbn [str_digits]. destruct (n <? 10); [done|].
  destruct (str_digits fuel (n / 10)); done.
Qed.

Lemma digits_value_app acc a b :
  digits_value acc (a +:+ b) = digits_value (digits_value acc a) b.
Proof.
  revert acc. induction a as [|c a IH]; intros acc; [done|].
  rewrite string_app_cons. cbn [digits_value]. apply IH.
Qed.

(** Reading back the digits written by [str_digits] gives the number. *)
Lemma digits_value_str_digits fuel : ∀ n,
  (1 ≤ fuel)%nat → 0 ≤ n < 2 ^ Z.of_nat fuel →
  digits_value 0 (str_digits fuel n) = n.
Proof.
  induction fuel as [|fuel IH]; intros n Hf Hn; [lia|].
  cbn [str_digits]. destruct (n <? 10) eqn:E.
  - apply Z.ltb_lt in E. cbn [digits_value].
    rewrite digit_char_code by lia. lia.
  - apply Z.ltb_ge in E.
    rewrite Nat2Z.inj_succ, Z.pow_succ_r in Hn by lia.
    assert (0 ≤ n / 10 < 2 ^ Z.of_nat fuel) as Hn'.
    { split; [apply Z.div_pos; lia|]. apply Z.div_lt_upper_bound; lia. }
    assert (1 ≤ fuel)%nat as Hf'.
    { destruct fuel; [|lia]. cbn in Hn'.
      assert (1 ≤ n / 10) by (apply Z.div_le_lower_bound; lia). lia. }
    rewrite digits_value_app, IH by done. cbn [digits_value].
    pose proof (Z.mod_pos_bound n 10 ltac:(lia)).
    rewrite digit_char_code by lia.
    pose proof (Z.div_mod n 10 ltac:(lia)). lia.
Qed.

Lemma str_nat_value n : 0 ≤ n → digits_value 0 (str_nat n) = n.
Proof.
  intros Hn. unfold str_nat. apply digits_value_str_digits; [lia|].
  split; [done|]. by apply str_nat_fuel.
Qed.

Lemma str_nat_inj n m : 0 ≤ n → 0 ≤ m → str_nat n = str_nat m → n = m.
Proof.
  intros Hn Hm E. rewrite <- (str_nat_value n), <- (str_nat_value m) by done.
  by rewrite E.
Qed.

Lemma str_nat_first_digit n :
  0 ≤ n → ∃ c s, str_nat n = String c s ∧ is_digit c = true.
Proof.
  intros Hn. pose proof (str_digits_all_digits (S (Z.to_nat (Z.log2 n))) n Hn)
    as Hd.
  pose proof (str_digits_nonempty (Z.to_nat (Z.log2 n)) n) as Hne.
  fold (str_nat n) in Hd, Hne. destruct (str_nat n) as [|c s]; [done|].
  exists c, s. split; [done|]. cbn [string_forall] in Hd.
  by apply andb_prop in Hd as [? _].
Qed.

(** [str] is injective: different integers have different renderings. *)
Lemma str_inj n m : str n = str m → n = m.
Proof.
  unfold str. destruct (n <? 0) eqn:En, (m <? 0) eqn:Em; intros E.
  - apply Z.ltb_lt in En, Em. apply (inj (String.app "-")) in E.
    apply str_nat_inj in E; lia.
  - apply Z.ltb_lt in En. apply Z.ltb_ge in Em.
    destruct (str_nat_first_digit m Em) as (c & s & Hs & Hc).
    rewrite Hs in E. injection E as <- _. done.
  - apply Z.ltb_ge in En. apply Z.ltb_lt in Em.
    destruct (str_nat_first_digit n En) as (c & s & Hs & Hc).
    rewrite Hs in E. injection E as -> _. done.
  - apply Z.ltb_ge in En, Em. by apply str_nat_inj.
Qed.

Lemma str_no_bar n : string_forall (negb ∘ is_bar) (str n) = true.
Proof.
  assert (∀ s, string_forall is_digit s = true →
               string_forall (negb ∘ is_bar) s = true) as Hd.
  { induction s as [|c s IH]; [done|]. cbn [string_forall].
    intros [Hc Hs]%andb_prop. rewrite IH by done. rewrite andb_true_r.
    unfold is_digit in Hc. apply andb_prop in Hc as [H1 H2].
    apply N.leb_le in H1, H2. unfold compose, is_bar.
    apply negb_true_iff, N.eqb_neq. lia. }
  unfold str. destruct (n <? 0) eqn:E.
  - rewrite string_app_cons. cbn [string_forall].
    apply Z.ltb_lt in E. rewrite Hd; [done|].
    apply str_digits_all_digits. lia.
  - apply Z.ltb_ge in E. apply Hd. by apply str_digits_all_digits.
Qed.

(** Two strings with a ["|"] before a bar-free tail agree only when both
    the parts before it and the tails agree. *)
Lemma split_at_last_bar a : ∀ b t1 t2,
  string_forall (negb ∘ is_bar) t1 = true →
  string_forall (negb ∘ is_bar) t2 = true →
  a +:+ "|" +:+ t1 = b +:+ "|" +:+ t2 → a = b ∧ t1 = t2.
Proof.
  assert (∀ x y, string_forall (negb ∘ is_bar) (x +:+ String "|" y) = false)
    as Hbar.
  { intros x y. rewrite string_forall_app.
    cbn [string_forall]. unfold compose at 2. cbn. apply andb_false_r. }
  assert (∀ s : string, "" +:+ s = s) as Hnil by done.
  induction a as [|c a IH]; intros [|c' b] t1 t2 H1 H2 E;
    rewrite ?string_app_cons, ?Hnil, ?string_app_cons in E.
  - by injection E as ->.
  - injection E as <- ->. by rewrite Hbar in H1.
  - injection E as -> <-. by rewrite Hbar in H2.
  - injection E as -> E.
    destruct (IH b t1 t2 H1 H2 E) as [-> ->]. done.
Qed.

Lemma memcachekey_of_inj_aux e1 q1 e2 q2 :
  memcachekey_of e1 q1 = memcachekey_of e2 q2 → e1 = e2 ∧ q1 = q2.
Proof.
  unfold memcachekey_of. intros E. apply (inj (String.app "vote|")) in E.
  apply split_at_last_bar in E as [-> E]; [|apply str_no_bar..].
  by apply str_inj in E as ->.
Qed.

(** X1: the cache key ["vote|" + email + "|" + str(quote_id)] built by
    [set_vote] and [voted] identifies the pair: two keys are equal only
    for the same email and the same quote id, whatever characters the
    email holds. *)
Theorem memcachekey_of_inj (e1 e2 : string) (q1 q2 : Z) :
  memcachekey_of e1 q1 = memcachekey_of e2 q2 → e1 = e2 ∧ q1 = q2.
Proof. apply memcachekey_of_inj_aux. Qed.

Lemma memcachekey_of_inj_witness :
  memcachekey_of "a|1" 2 = memcachekey_of "a|1" 2
  ∧ "a|1" = "a|1" ∧ 2 = 2.
Proof.
  split; [reflexivity|].
  apply (memcachekey_of_inj "a|1" "a|1" 2 2). reflexivity.
Defined.

(** X2: the string [_unique_user] hashes, [email + "|" + str(count)],
    is different for different pairs of email and counter value: the
    uniqueness of the token rests on the digest alone. *)
Theorem unique_user_input_inj (e1 e2 : string) (c1 c2 : Z) :
  unique_user_input e1 c1 = unique_user_input e2 c2 → e1 = e2 ∧ c1 = c2.
Proof.
  unfold unique_user_input. intros E.
  apply split_at_last_bar in E as [-> E]; [|apply str_no_bar..].
  by apply str_inj in E as ->.
Qed.

Lemma unique_user_input_inj_witness :
  unique_user_input "fred@example.com" 12 = unique_user_input "fred@example.com" 12
  ∧ "fred@example.com" = "fred@example.com" ∧ 12 = 12.
Proof.
  split; [reflexivity|].
  apply (unique_user_input_inj "fred@example.com" "fred@example.com" 12 12).
  reflexivity.
Defined.

(** ** The effect of [set_vote] and [voted] on the stores *)

(** What [_set_progress_hasVoted] does to the [Voter] kind. *)
Lemma set_progress_hasVoted_voters u st :
  voters (_set_progress_hasVoted (Some u) st).2
  = match voters st !! email u with
    | Some w =>
        if hasVoted w then voters st
        else <[email u := mkVoter (count w) true (hasAddedQuote w)]>
               (voters st)
    | None => <[email u := mkVoter 0 true false]> (voters st)
    end.
Proof.
  unfold _set_progress_hasVoted, run_in_transaction, _get_or_create_voter,
    Voter_get_by_key_name, put_voter, user_email, bind, log, ret; cbn.
  destruct (voters st !! email u) as [w|]; cbn; [|done].
  by destruct (hasVoted w).
Qed.

(** Every [set_vote] call either leaves quotes, votes and cache alone or
    rewrites exactly the voted quote, the caller's vote and the caller's
    cache entry. *)
Lemma set_vote_effect qid user v st :
  next_id (set_vote qid user v st).2 = next_id st
  ∧ ((quotes (set_vote qid user v st).2 = quotes st
      ∧ votes (set_vote qid user v st).2 = votes st
      ∧ memcache (set_vote qid user v st).2 = memcache st)
     ∨ ∃ u q,
         user = Some u
         ∧ quotes st !! qid = Some q
         ∧ (set_vote qid user v st).1 = Returned tt
         ∧ quotes (set_vote qid user v st).2
           = <[qid := revoted q (prior_vote st (Some qid) (email u)) v]>
               (quotes st)
         ∧ votes (set_vote qid user v st).2
           = <[(Some qid, email u) := mkVote v]> (votes st)
         ∧ memcache (set_vote qid user v st).2
           = <[memcachekey_of (email u) qid := v]> (memcache st)).
Proof.
  destruct user as [u|]; [|by split; [|left]].
  destruct (quotes st !! qid) as [q|] eqn:Hq.
  - destruct (decide (prior_vote st (Some qid) (email u) = v)) as [He|Hne].
    + destruct (set_vote_unchanged _ _ _ _ _ Hq He)
        as (st' & -> & ? & ? & ? & ?).
      split; [done|]. by left.
    + destruct (set_vote_changed _ _ _ _ _ Hq Hne)
        as (st' & -> & ? & ? & ? & ?).
      split; [done|]. right. exists u, q. by repeat split.
  - destruct (set_vote_missing_stores qid u v st Hq) as (? & ? & ? & ?).
    split; [done|]. by left.
Qed.

Lemma prior_vote_insert st st' qid e v p' e' :
  votes st' = <[(Some qid, e) := mkVote v]> (votes st) →
  prior_vote st' p' e'
  = if decide (p' = Some qid ∧ e' = e) then v else prior_vote st p' e'.
Proof.
  intros Ev. unfold prior_vote. rewrite Ev. case_decide as Hd.
  - destruct Hd as [-> ->]. by rewrite lookup_insert_eq.
  - rewrite lookup_insert_ne; [done|]. intros [=]. by apply Hd.
Qed.

Lemma set_vote_coherent qid user v st :
  cache_coherent st → cache_coherent (set_vote qid user v st).2.
Proof.
  intros Hc. destruct (set_vote_effect qid user v st) as [_ H].
  destruct H as [(_ & Ev & Em)|(u & q & _ & _ & _ & _ & Ev & Em)];
    intros e' q' v' Hl.
  - rewrite Em in Hl. unfold prior_vote. rewrite Ev. by apply Hc.
  - rewrite Em in Hl. rewrite (prior_vote_insert st _ qid (email u) v) by done.
    destruct (decide (memcachekey_of (email u) qid = memcachekey_of e' q'))
      as [E|N].
    + apply memcachekey_of_inj_aux in E as [<- <-].
      rewrite lookup_insert_eq in Hl. injection Hl as <-.
      by rewrite decide_True.
    + rewrite lookup_insert_ne in Hl by done.
      rewrite decide_False; [by apply Hc|].
      intros [[= ->] ->]. done.
Qed.

(** X3: [set_vote] keeps the cache in step with the vote store: if every
    cache entry agrees with the stored vote before the call, it does so
    after it, for every quote id, caller and value, whether the call
    returns or raises. *)
Theorem set_vote_keeps_cache_coherent (quote_id : Z) (user : option User)
    (newvote : Z) (st : Store) :
  cache_coherent st →
  cache_coherent (set_vote quote_id user newvote st).2.
Proof. apply set_vote_coherent. Qed.

Lemma cache_coherent_empty st : memcache st = ∅ → cache_coherent st.
Proof. intros E e q v. by rewrite E, lookup_empty. Qed.

Lemma set_vote_keeps_cache_coherent_witness :
  cache_coherent busy_store
  ∧ cache_coherent (set_vote 1 (Some fred) 1 busy_store).2.
Proof.
  assert (cache_coherent busy_store) as H.
  { apply cache_coherent_empty. vm_compute. reflexivity. }
  split; [exact H|].
  exact (set_vote_keeps_cache_coherent 1 (Some fred) 1 busy_store H).
Defined.

(** The three paths of [voted] for a signed-in user. *)
Lemma voted_effect qid u st :
  let key := memcachekey_of (email u) qid in
  match memcache st !! key with
  | Some v =>
      ∃ st', voted qid (Some u) st = (Returned v, st') ∧ same_data st st'
  | None =>
      match votes st !! (Some qid, email u) with
      | Some w =>
          ∃ st', voted qid (Some u) st = (Returned (vote w), st')
            ∧ quotes st' = quotes st ∧ votes st' = votes st
            ∧ voters st' = voters st ∧ next_id st' = next_id st
            ∧ memcache st' = <[key := vote w]> (memcache st)
      | None =>
          ∃ st', voted qid (Some u) st = (Returned 0, st') ∧ same_data st st'
      end
  end.
Proof.
  unfold voted, memcachekey_of, memcache_get, memcache_set,
    Vote_get_by_key_name, bind, log, ret. cbn.
  destruct (memcache st !! _) as [v|]; cbn.
  - eexists. split; [reflexivity|]. by repeat split.
  - destruct (votes st !! _) as [w|]; cbn.
    + eexists. split; [reflexivity|]. by repeat split.
    + eexists. split; [reflexivity|]. by repeat split.
Qed.

Lemma voted_coherent qid user st :
  cache_coherent st → cache_coherent (voted qid user st).2.
Proof.
  intros Hc. destruct user as [u|]; [|done].
  pose proof (voted_effect qid u st) as H. cbn zeta in H.
  destruct (memcache st !! memcachekey_of (email u) qid) as [v|] eqn:Em.
  - destruct H as (st' & -> & (_ & Ev & _ & _ & Ec)). cbn.
    intros e q v'. unfold prior_vote. rewrite Ev, Ec. apply Hc.
  - destruct (votes st !! (Some qid, email u)) as [w|] eqn:Ew.
    + destruct H as (st' & -> & _ & Ev & _ & _ & Ec). cbn.
      intros e q v'. unfold prior_vote. rewrite Ev, Ec.
      destruct (decide (memcachekey_of (email u) qid = memcachekey_of e q))
        as [E|N].
      * apply memcachekey_of_inj_aux in E as [<- <-].
        rewrite lookup_insert_eq, Ew. by intros [= <-].
      * rewrite lookup_insert_ne by done. apply Hc.
    + destruct H as (st' & -> & (_ & Ev & _ & _ & Ec)). cbn.
      intros e q v'. unfold prior_vote. rewrite Ev, Ec. apply Hc.
Qed.





(** ** Submission, lookup and deletion *)

(** [_unique_user] for a signed-in user: the counter goes up by one, the
    flag is set, and the token is the digest of email and new counter. *)
Lemma unique_user_effect md5 u st :
  ∃ st',
    _unique_user md5 (Some u) st
    = (Returned (md5 (unique_user_input (email u)
                        (count (voter_of st (email u)) + 1))), st')
    ∧ quotes st' = quotes st ∧ votes st' = votes st
    ∧ next_id st' = next_id st ∧ memcache st' = memcache st
    ∧ voters st'
      = <[email u := mkVoter (count (voter_of st (email u)) + 1)
                       (hasVoted (voter_of st (email u))) true]>
          (voters st).
Proof.
  unfold _unique_user, run_in_transaction, _get_or_create_voter,
    Voter_get_by_key_name, put_voter, user_email, voter_of,
    unique_user_input, bind, log, ret. cbn.
  destruct (voters st !! email u) as [w|]; cbn;
    eexists; (split; [reflexivity|]); by repeat split.
Qed.

(** The successful path of [add_quote], in full. *)
Lemma add_quote_success md5 now text u uri_ _created st :
  text ≠ "" →
  ∃ st',
    add_quote md5 now text (Some u) uri_ _created st
    = (Returned (Some (next_id st)), st')
    ∧ quotes st'
      = <[next_id st :=
            {| quote := text; uri := uri_; rank := None;
               created := match _created with
                          | Some c => if decide (c = 0)
                                      then days_since_epoch now else c
                          | None => days_since_epoch now
                          end;
               creation_order :=
                 String.substring 0 19 (isoformat now) +:+ "|"
                 +:+ md5 (unique_user_input (email u)
                            (count (voter_of st (email u)) + 1));
               votesum := 0; creator := Some u |}]> (quotes st)
    ∧ votes st' = votes st
    ∧ next_id st' = next_id st + 1
    ∧ memcache st' = memcache st
    ∧ voters st'
      = <[email u := mkVoter (count (voter_of st (email u)) + 1)
                       (hasVoted (voter_of st (email u))) true]>
          (voters st).
Proof.
  intros Htext. unfold add_quote, try_except_db_Error. unfold bind at 1.
  destruct (unique_user_effect md5 u st) as (st1 & -> & Eq & Ev & En & Em & Ew).
  unfold new_Quote, put_new_quote, bind, ret, raise.
  destruct (decide (text = "")) as [e|_]; [by destruct Htext|].
  cbn. rewrite En. eexists. split; [reflexivity|]. cbn.
  rewrite Eq, Ev, Em, Ew. by repeat split.
Qed.


Lemma ids_allocated_empty : ids_allocated empty_store.
Proof. intros i q Hl. cbn in Hl. by rewrite lookup_empty in Hl. Qed.


(** X7: [add_quote] with an empty text returns [None] and stores no
    quote, but the user's counter has already been incremented and
    [hasAddedQuote] has already been set: the [Voter] update of
    [_unique_user] is committed before the quote is built and is not
    undone by the [except] clause. *)
Theorem add_quote_empty_text (md5 : string → string) (now : DateTime)
    (u : User) (uri_ : option string) (_created : option Z) (st : Store) :
  ∃ st',
    add_quote md5 now "" (Some u) uri_ _created st = (Returned None, st')
    ∧ quotes st' = quotes st ∧ next_id st' = next_id st
    ∧ votes st' = votes st ∧ memcache st' = memcache st
    ∧ voters st' !! email u
      = Some (mkVoter (count (voter_of st (email u)) + 1)
                (hasVoted (voter_of st (email u))) true).
Proof.
  unfold add_quote, try_except_db_Error. unfold bind at 1.
  destruct (unique_user_effect md5 u st) as (st1 & -> & Eq & Ev & En & Em & Ew).
  unfold new_Quote, bind, ret, raise. cbn.
  exists st1. rewrite Ew, lookup_insert_eq. by repeat split.
Qed.

(** X8: [add_quote] without a signed-in user raises [AttributeError],
    which the [except db.Error] clause does not catch; nothing is read,
    written or logged. *)
Theorem add_quote_anonymous_raises (md5 : string → string) (now : DateTime)
    (text : string) (uri_ : option string) (_created : option Z)
    (st : Store) :
  (add_quote md5 now text None uri_ _created st).1 = Raised AttributeError
  ∧ same_data st (add_quote md5 now text None uri_ _created st).2
  ∧ ops (add_quote md5 now text None uri_ _created st).2 = ops st.
Proof. by repeat split. Qed.

(** X9: [del_quote] by an administrator or by the creator removes the
    quote and nothing else: the other quotes, the votes cast on the
    deleted quote, the voters and the cache stay as they were, [get_quote]
    no longer finds the quote, and deleting it a second time changes
    nothing. *)
Theorem del_quote_authorized (is_admin : bool) (quote_id : Z)
    (user : option User) (st : Store) (q : Quote) :
  quotes st !! quote_id = Some q →
  is_admin = true ∨ creator q = user →
  ∃ st',
    del_quote is_admin quote_id user st = (Returned tt, st')
    ∧ quotes st' = delete quote_id (quotes st)
    ∧ votes st' = votes st ∧ voters st' = voters st
    ∧ next_id st' = next_id st ∧ memcache st' = memcache st
    ∧ (get_quote quote_id st').1 = Returned None
    ∧ ∃ st'', del_quote is_admin quote_id user st' = (Returned tt, st'')
        ∧ same_data st' st''.
Proof.
  intros Hq Hauth.
  assert (is_admin || bool_decide (creator q = user) = true) as Hb.
  { destruct Hauth as [->|E]; [done|].
    rewrite (bool_decide_eq_true_2 _ E). apply orb_true_r. }
  unfold del_quote at 1. unfold Quote_get_by_id, delete_quote, bind, log, ret.
  cbn. rewrite Hq. cbn. rewrite Hb. cbn.
  eexists. split; [reflexivity|]. cbn. do 5 (split; [done|]).
  split. { by rewrite lookup_delete_eq. }
  unfold del_quote, Quote_get_by_id, bind, log, ret. cbn.
  rewrite lookup_delete_eq. cbn.
  eexists. split; [reflexivity|]. by repeat split.
Qed.

Lemma del_quote_authorized_witness :
  ∃ q,
    quotes downvoted_store !! 1 = Some q
    ∧ (false = true ∨ creator q = Some fred)
    ∧ ∃ st',
        del_quote false 1 (Some fred) downvoted_store = (Returned tt, st')
        ∧ quotes st' = delete 1 (quotes downvoted_store)
        ∧ votes st' = votes downvoted_store
        ∧ voters st' = voters downvoted_store
        ∧ next_id st' = next_id downvoted_store
        ∧ memcache st' = memcache downvoted_store
        ∧ (get_quote 1 st').1 = Returned None
        ∧ ∃ st'', del_quote false 1 (Some fred) st' = (Returned tt, st'')
            ∧ same_data st' st''.
Proof.
  assert (∃ q, quotes downvoted_store !! 1 = Some q
               ∧ (false = true ∨ creator q = Some fred)) as (q & Hq & Ha).
  { vm_compute. eexists. split; [reflexivity|]. by right. }
  exists q. split; [exact Hq|]. split; [exact Ha|].
  exact (del_quote_authorized false 1 (Some fred) downvoted_store q Hq Ha).
Defined.

(** ** Pages of the listings *)

Lemma StronglySorted_filter {A} (R : relation A) (P : A → Prop)
    `{∀ x, Decision (P x)} (l : list A) :
  StronglySorted R l → StronglySorted R (filter P l).
Proof.
  induction l as [|x l IH]; intros Hs; [constructor|].
  apply StronglySorted_cons in Hs as [Hx Hs].
  rewrite filter_cons. destruct (decide (P x)); [|by apply IH].
  apply StronglySorted_cons. split; [|by apply IH].
  rewrite Forall_forall in Hx. apply Forall_forall.
  intros y [_ Hy]%list_elem_of_filter. by apply Hx.
Qed.

Lemma StronglySorted_lookup_lt {A} (R : relation A) (l : list A) :
  StronglySorted R l →
  ∀ i j x y, (i < j)%nat → l !! i = Some x → l !! j = Some y → R x y.
Proof.
  induction l as [|a l IH]; intros Hs i j x y Hij Hi Hj; [done|].
  apply StronglySorted_cons in Hs as [Ha Hs].
  destruct j as [|j]; [lia|]. cbn in Hj. destruct i as [|i]; cbn in Hi.
  - injection Hi as ->. rewrite Forall_forall in Ha. apply Ha.
    by eapply list_elem_of_lookup_2.
  - apply (IH Hs i j); [lia|done..].
Qed.

Lemma elem_of_all_newest qs i q :
  (i, q) ∈ all_newest qs ↔ qs !! i = Some q.
Proof. rewrite all_newest_perm. apply elem_of_map_to_list. Qed.

Lemma NoDup_all_newest qs : NoDup (all_newest qs).
Proof. rewrite all_newest_perm. apply NoDup_map_to_list. Qed.

(** The rows a recency query selects before the limit is applied. *)
Lemma select_newest_rows qs offset :
  ∃ rows,
    (∀ limit, select_newest qs offset limit = take (Z.to_nat limit) rows)
    ∧ NoDup rows
    ∧ StronglySorted newest_first rows
    ∧ ∀ i q, (i, q) ∈ rows
             ↔ qs !! i = Some q
               ∧ ∀ b, offset = Some b → String.le (creation_order q) b.
Proof.
  pose proof (StronglySorted_merge_sort newest_first (map_to_list qs)) as Hs.
  fold (all_newest qs) in Hs.
  destruct offset as [b|].
  - exists (filter (λ e : Entity, String.le (creation_order e.2) b)
              (all_newest qs)).
    split; [done|]. split; [apply NoDup_filter, NoDup_all_newest|].
    split; [by apply StronglySorted_filter|].
    intros i q. rewrite list_elem_of_filter, elem_of_all_newest. cbn.
    split.
    + intros [? ?]. split; [done|]. by intros ? [= <-].
    + intros [? Hb]. split; [by apply Hb|done].
  - exists (all_newest qs). split; [done|].
    split; [apply NoDup_all_newest|]. split; [done|].
    intros i q. rewrite elem_of_all_newest. split; [|by intros [? _]].
    intros ?. split; [done|]. by intros.
Qed.

(** X10: [get_quotes_newest] always returns, reads only, and gives a page
    of at most [PAGE_SIZE] stored quotes without repetition, all at or
    below the offset.  When no [extra] is returned the page holds every
    stored quote at or below the offset; when an [extra] is returned the
    page is full and [extra] is the [creation_order] of a stored quote
    that is not newer than any quote of the page. *)
Theorem get_quotes_newest_page (offset : option string) (st : Store) :
  ∃ page extra st',
    get_quotes_newest offset st = (Returned (page, extra), st')
    ∧ same_data st st'
    ∧ len page ≤ PAGE_SIZE
    ∧ NoDup page
    ∧ (∀ i q, (i, q) ∈ page →
              quotes st !! i = Some q
              ∧ ∀ b, offset = Some b → String.le (creation_order q) b)
    ∧ (extra = None →
       ∀ i q, quotes st !! i = Some q →
              (∀ b, offset = Some b → String.le (creation_order q) b) →
              (i, q) ∈ page)
    ∧ (∀ c, extra = Some c →
            len page = PAGE_SIZE
            ∧ (∃ i q, quotes st !! i = Some q ∧ creation_order q = c)
            ∧ ∀ e, e ∈ page → String.le c (creation_order e.2)).
Proof.
  rewrite get_quotes_newest_unfold. cbn zeta.
  destruct (select_newest_rows (quotes st) offset)
    as (rows & -> & Hnd & Hs & Hin).
  set (st1 := (log (OpQueryNewest offset) st).2).
  assert (same_data st st1) as Hst1 by by repeat split.
  change (Z.to_nat (PAGE_SIZE + 1)) with 21%nat.
  change (Z.to_nat PAGE_SIZE) with 20%nat.
  unfold len, PAGE_SIZE.
  destruct (decide (length rows ≤ 20)%nat) as [Hshort|Hlong].
  - rewrite take_ge by lia.
    replace (20 <? Z.of_nat (length rows)) with false
      by (symmetry; apply Z.ltb_ge; lia).
    exists rows, None, st1. split; [done|]. split; [done|].
    split; [lia|]. split; [done|].
    split. { intros i q. apply Hin. }
    split. { intros _ i q ? ?. by apply Hin. }
    by intros.
  - assert (length (take 21 rows) = 21%nat) as H21.
    { rewrite length_take. lia. }
    replace (20 <? Z.of_nat (length (take 21 rows))) with true
      by (symmetry; apply Z.ltb_lt; lia).
    assert (∃ y, rows !! 20%nat = Some y) as [y Hy].
    { apply lookup_lt_is_Some. lia. }
    assert (last (take 21 rows) = Some y) as ->.
    { rewrite last_lookup, H21. cbn [pred]. by rewrite lookup_take_lt by lia. }
    rewrite take_take. change (20 `min` 21)%nat with 20%nat.
    exists (take 20 rows), (Some (creation_order y.2)), st1.
    split; [done|]. split; [done|].
    split. { rewrite length_take. lia. }
    split. { eapply sublist_NoDup; [exact Hnd|apply sublist_take]. }
    split. { intros i q Hq. apply Hin. by eapply subseteq_take. }
    split; [done|].
    intros c [= <-]. split. { rewrite length_take. lia. }
    split.
    + destruct y as [i q]. exists i, q. split; [|done].
      apply Hin. by eapply list_elem_of_lookup_2.
    + intros e [k [Hk Hlt]]%elem_of_take.
      pose proof (StronglySorted_lookup_lt _ _ Hs k 20%nat e y Hlt Hk Hy)
        as [[_ Hle]|[E _]]; [done|]. by rewrite E.
Qed.

Lemma all_ranked_perm qs : all_ranked qs ≡ₚ map_to_list qs.
Proof. apply merge_sort_Permutation. Qed.

(** A rank page is a slice of the ranking: page [k] holds the rows from
    [20 k] on, at most 20 of them, and [extra] is the row after them,
    except on page 19 where it is never returned. *)
Lemma get_quotes_slice (k : nat) st :
  (k < 20)%nat →
  ∃ st',
    get_quotes (Z.of_nat k) st
    = (Returned (take 20 (drop (20 * k) (all_ranked (quotes st))),
                 if decide (k < 19)%nat
                 then all_ranked (quotes st) !! (20 * S k)%nat
                 else None), st')
    ∧ same_data st st'.
Proof.
  intros Hk. unfold get_quotes, assert. unfold bind at 1 2.
  replace (0 <=? Z.of_nat k) with true by (symmetry; apply Z.leb_le; lia).
  replace (Z.of_nat k <? 20) with true by (symmetry; apply Z.ltb_lt; lia).
  cbn [ret]. unfold query_rank, select_ranked, bind, log, ret.
  cbn -[Nat.mul].
  set (st1 := {| quotes := quotes st; votes := votes st; voters := voters st;
                 next_id := next_id st; memcache := memcache st;
                 ops := ops st ++ [OpQueryRank (Z.of_nat k * PAGE_SIZE)] |}).
  assert (same_data st st1) as Hst1 by by repeat split.
  change (Z.to_nat (PAGE_SIZE + 1)) with 21%nat.
  change (Z.to_nat PAGE_SIZE) with 20%nat.
  replace (Z.to_nat (Z.of_nat k * PAGE_SIZE)) with (20 * k)%nat
    by (unfold PAGE_SIZE; lia).
  set (R := all_ranked (quotes st)). set (D := drop (20 * k) R).
  unfold len, PAGE_SIZE.
  destruct (decide (length D ≤ 20)%nat) as [Hshort|Hlong].
  - replace (20 <? Z.of_nat (length (take 21 D))) with false
      by (symmetry; apply Z.ltb_ge; rewrite length_take; lia).
    rewrite !take_ge by lia.
    assert (R !! (20 * S k)%nat = None) as ->.
    { apply lookup_ge_None. unfold D in Hshort.
      rewrite length_drop in Hshort. lia. }
    exists st1. split; [|done]. by destruct (decide _).
  - assert (length (take 21 D) = 21%nat) as H21.
    { rewrite length_take. lia. }
    replace (20 <? Z.of_nat (length (take 21 D))) with true
      by (symmetry; apply Z.ltb_lt; lia).
    assert (∃ y, R !! (20 * S k)%nat = Some y) as [y Hy].
    { apply lookup_lt_is_Some. unfold D in Hlong.
      rewrite length_drop in Hlong. lia. }
    assert (last (take 21 D) = Some y) as Hlast.
    { rewrite last_lookup, H21. cbn [pred].
      rewrite lookup_take_lt by lia. unfold D. rewrite lookup_drop.
      by replace (20 * k + 20)%nat with (20 * S k)%nat by lia. }
    rewrite take_take. change (20 `min` 21)%nat with 20%nat.
    destruct (decide (k < 19)%nat) as [H19|H19].
    + replace (Z.of_nat k <? 19) with true by (symmetry; apply Z.ltb_lt; lia).
      unfold last_item. rewrite Hlast, Hy. cbn. by exists st1.
    + replace (Z.of_nat k <? 19) with false by (symmetry; apply Z.ltb_ge; lia).
      cbn. by exists st1.
Qed.

(** X11: for [0 <= page < 20], [get_quotes] returns the rows of the rank
    order from position [20 * page] on, at most [PAGE_SIZE] of them, and
    as [extra] the row that follows them if there is one and the page is
    not the last allowed one (19); the rank order holds every stored
    quote exactly once.  Pages therefore neither overlap nor skip rows. *)
Theorem get_quotes_page_slice (page : Z) (st : Store) :
  0 ≤ page < 20 →
  ∃ st',
    get_quotes page st
    = (Returned
         (take 20 (drop (Z.to_nat (page * PAGE_SIZE))
                     (all_ranked (quotes st))),
          if page <? 19
          then all_ranked (quotes st) !! Z.to_nat ((page + 1) * PAGE_SIZE)
          else None), st')
    ∧ same_data st st'
    ∧ NoDup (all_ranked (quotes st))
    ∧ ∀ i q, (i, q) ∈ all_ranked (quotes st) ↔ quotes st !! i = Some q.
Proof.
  intros Hp.
  destruct (get_quotes_slice (Z.to_nat page) st ltac:(lia)) as (st' & E & Hs).
  rewrite Z2Nat.id in E by lia.
  exists st'. split.
  - rewrite E.
    replace (Z.to_nat (page * PAGE_SIZE)) with (20 * Z.to_nat page)%nat
      by (unfold PAGE_SIZE; lia).
    replace (Z.to_nat ((page + 1) * PAGE_SIZE))
      with (20 * S (Z.to_nat page))%nat by (unfold PAGE_SIZE; lia).
    destruct (decide _) as [H|H].
    + by replace (page <? 19) with true by (symmetry; apply Z.ltb_lt; lia).
    + by replace (page <? 19) with false by (symmetry; apply Z.ltb_ge; lia).
  - split; [done|]. split.
    + rewrite all_ranked_perm. apply NoDup_map_to_list.
    + intros i q. rewrite all_ranked_perm. apply elem_of_map_to_list.
Qed.

Lemma get_quotes_page_slice_witness :
  0 ≤ 0 < 20
  ∧ ∃ st',
      get_quotes 0 busy_store
      = (Returned
           (take 20 (drop (Z.to_nat (0 * PAGE_SIZE))
                       (all_ranked (quotes busy_store))),
            if 0 <? 19
            then all_ranked (quotes busy_store)
                 !! Z.to_nat ((0 + 1) * PAGE_SIZE)
            else None), st')
      ∧ same_data busy_store st'
      ∧ NoDup (all_ranked (quotes busy_store))
      ∧ ∀ i q, (i, q) ∈ all_ranked (quotes busy_store)
               ↔ quotes busy_store !! i = Some q.
Proof.
  assert (0 ≤ 0 < 20) as H by lia.
  split; [exact H|].
  exact (get_quotes_page_slice 0 busy_store H).
Defined.

Lemma page_through_ranked_from st0 : ∀ fuel k st,
  quotes st = quotes st0 →
  (k < 20)%nat → (20 ≤ k + fuel)%nat →
  ∃ pages st',
    page_through_ranked fuel (Z.of_nat k) st = (Returned (Some pages), st')
    ∧ concat pages
      = take (20 * (20 - k)) (drop (20 * k) (all_ranked (quotes st0)))
    ∧ (length pages ≤ 20 - k)%nat
    ∧ same_data st st'.
Proof.
  induction fuel as [|fuel IH]; intros k st Hq Hk Hf; [lia|].
  cbn [page_through_ranked]. unfold bind at 1.
  destruct (get_quotes_slice k st Hk) as (st1 & -> & Hs1).
  rewrite Hq. cbn [fst snd].
  set (R := all_ranked (quotes st0)). set (D := drop (20 * k) R).
  destruct (decide (k < 19)%nat) as [H19|H19].
  - destruct (R !! (20 * S k)%nat) as [y|] eqn:Hy.
    + destruct (IH (S k) st1) as (pages & st' & E & Hcat & Hlen & Hs');
        [destruct Hs1 as [-> _]; done|lia|lia|].
      replace (Z.of_nat k + 1) with (Z.of_nat (S k)) by lia.
      unfold bind. rewrite E. cbn -[take drop Nat.mul Nat.sub concat].
      exists (take 20 D :: pages), st'. split; [done|]. split.
      * cbn [concat]. rewrite Hcat. fold R.
        replace (drop (20 * S k) R) with (drop 20 D)
          by (unfold D; rewrite drop_drop; f_equal; lia).
        rewrite take_take_drop. f_equal. lia.
      * split; [cbn; lia|by eapply same_data_trans].
    + apply lookup_ge_None in Hy. cbn -[take drop Nat.mul Nat.sub concat].
      exists [take 20 D], st1. split; [done|]. split.
      * cbn [concat]. rewrite app_nil_r.
        assert (length D ≤ 20)%nat as HD.
        { unfold D. rewrite length_drop. lia. }
        clearbody D. rewrite (take_ge D 20) by done.
        rewrite take_ge; [done|lia].
      * split; [cbn; lia|done].
  - cbn -[take drop Nat.mul Nat.sub concat].
    exists [take 20 D], st1. split; [done|]. split.
    + cbn [concat]. rewrite app_nil_r. f_equal. lia.
    + split; [cbn; lia|done].
Qed.

(** X12: following the [extra] of [get_quotes] from page 0 never trips an
    assertion and ends within 20 calls; the pages seen, put end to end,
    are the first 400 rows of the rank order, or all rows when there are
    fewer: quotes beyond position 400 cannot be reached this way. *)
Theorem page_through_ranked_cap (st : Store) :
  ∃ pages st',
    page_through_ranked 20 0 st = (Returned (Some pages), st')
    ∧ concat pages = take 400 (all_ranked (quotes st))
    ∧ (length pages ≤ 20)%nat
    ∧ same_data st st'.
Proof.
  destruct (page_through_ranked_from st 20 0%nat st)
    as (pages & st' & E & Hcat & Hlen & Hs); [done|lia|lia|].
  exists pages, st'. split; [exact E|]. split; [|split; [lia|done]].
  rewrite Hcat. by rewrite drop_0.
Qed.

(** ** The order of rank keys and of the rank listing *)

Lemma rank_of_fixed c v co :
  0 ≤ c * DAY_SCALE + v < 10 ^ 20 →
  rank_of c v co = fixed_digits 20 (c * DAY_SCALE + v) +:+ "|" +:+ co.
Proof. intros H. unfold rank_of. by rewrite format_020d_nonneg. Qed.

Lemma rank_of_compare_aux c1 v1 co1 c2 v2 co2 :
  0 ≤ c1 * DAY_SCALE + v1 < 10 ^ 20 →
  0 ≤ c2 * DAY_SCALE + v2 < 10 ^ 20 →
  String.compare (rank_of c1 v1 co1) (rank_of c2 v2 co2)
  = match c1 * DAY_SCALE + v1 ?= c2 * DAY_SCALE + v2 with
    | Eq => String.compare co1 co2
    | Lt => Lt
    | Gt => Gt
    end.
Proof.
  intros H1 H2. rewrite !rank_of_fixed by done.
  set (s1 := c1 * DAY_SCALE + v1) in *. set (s2 := c2 * DAY_SCALE + v2) in *.
  clearbody s1 s2. destruct (Z.compare_spec s1 s2) as [E|E|E].
  - rewrite E.
    by rewrite string_compare_app_same, (string_compare_app_same "|").
  - apply string_compare_app_lt.
    + by rewrite !fixed_digits_length.
    + apply (fixed_digits_lt 20); [lia|lia|].
      change (Z.of_nat 20) with 20. lia.
  - rewrite String.compare_antisym.
    rewrite string_compare_app_lt; [done| |].
    + by rewrite !fixed_digits_length.
    + apply (fixed_digits_lt 20); [lia|lia|].
      change (Z.of_nat 20) with 20. lia.
Qed.

(** X13: for scores from [0] up to [10^20], rank keys compare bytewise
    exactly as the pairs of score and [creation_order] compare: first by
    [created * DAY_SCALE + votesum], and on equal scores by
    [creation_order].  Two keys are equal only for equal scores and equal
    [creation_order]. *)
Theorem rank_of_compare (c1 v1 c2 v2 : Z) (co1 co2 : string) :
  0 ≤ c1 * DAY_SCALE + v1 < 10 ^ 20 →
  0 ≤ c2 * DAY_SCALE + v2 < 10 ^ 20 →
  String.compare (rank_of c1 v1 co1) (rank_of c2 v2 co2)
  = match c1 * DAY_SCALE + v1 ?= c2 * DAY_SCALE + v2 with
    | Eq => String.compare co1 co2
    | Lt => Lt
    | Gt => Gt
    end.
Proof. apply rank_of_compare_aux. Qed.

Lemma rank_of_compare_witness :
  0 ≤ 1 * DAY_SCALE + 5 < 10 ^ 20
  ∧ 0 ≤ 2 * DAY_SCALE + 3 < 10 ^ 20
  ∧ String.compare (rank_of 1 5 "a") (rank_of 2 3 "b")
    = match 1 * DAY_SCALE + 5 ?= 2 * DAY_SCALE + 3 with
      | Eq => String.compare "a" "b"
      | Lt => Lt
      | Gt => Gt
      end.
Proof.
  assert (0 ≤ 1 * DAY_SCALE + 5 < 10 ^ 20) as H1 by (unfold DAY_SCALE; lia).
  assert (0 ≤ 2 * DAY_SCALE + 3 < 10 ^ 20) as H2 by (unfold DAY_SCALE; lia).
  split; [exact H1|]. split; [exact H2|].
  exact (rank_of_compare 1 5 2 3 "a" "b" H1 H2).
Defined.

(** X14: below zero the order of rank keys is the reverse of the order of
    scores: for scores [-10^19 < s1 < s2 < 0] the key of [s2] is bytewise
    smaller than the key of [s1], whatever the [creation_order] values. *)
Theorem rank_of_negative_reversed (c1 v1 c2 v2 : Z) (co1 co2 : string) :
  - 10 ^ 19 < c1 * DAY_SCALE + v1 →
  c1 * DAY_SCALE + v1 < c2 * DAY_SCALE + v2 →
  c2 * DAY_SCALE + v2 < 0 →
  str_lt (rank_of c2 v2 co2) (rank_of c1 v1 co1).
Proof.
  intros H1 H12 H2. unfold rank_of, str_lt.
  rewrite !format_020d_neg by lia. rewrite !string_app_assoc.
  rewrite (string_compare_app_same "-").
  apply string_compare_app_lt.
  - by rewrite !fixed_digits_length.
  - apply (fixed_digits_lt 19); [lia|lia|]. change (Z.of_nat 19) with 19. lia.
Qed.

Lemma rank_of_negative_reversed_witness :
  - 10 ^ 19 < 1 * DAY_SCALE + -9
  ∧ 1 * DAY_SCALE + -9 < 1 * DAY_SCALE + -7
  ∧ 1 * DAY_SCALE + -7 < 0
  ∧ str_lt (rank_of 1 (-7) "b") (rank_of 1 (-9) "a").
Proof.
  assert (- 10 ^ 19 < 1 * DAY_SCALE + -9) as H1 by (unfold DAY_SCALE; lia).
  assert (1 * DAY_SCALE + -9 < 1 * DAY_SCALE + -7) as H2 by lia.
  assert (1 * DAY_SCALE + -7 < 0) as H3 by (unfold DAY_SCALE; lia).
  split; [exact H1|]. split; [exact H2|]. split; [exact H3|].
  exact (rank_of_negative_reversed 1 (-9) 1 (-7) "a" "b" H1 H2 H3).
Defined.

Lemma rank_le_total a b : rank_le a b ∨ rank_le b a.
Proof.
  destruct a as [x|], b as [y|]; cbn; auto.
  apply (total String.le).
Qed.

Lemma rank_le_trans a b c : rank_le a b → rank_le b c → rank_le a c.
Proof.
  destruct a as [x|], b as [y|], c as [z|]; cbn; try done.
  apply (transitivity (R := String.le)).
Qed.

Lemma rank_le_antisym a b : rank_le a b → rank_le b a → a = b.
Proof.
  destruct a as [x|], b as [y|]; cbn; try done.
  intros ? ?. f_equal. by apply (anti_symm String.le).
Qed.

#[local] Instance highest_rank_first_total : Total highest_rank_first.
Proof.
  intros a b. unfold highest_rank_first.
  destruct (decide (rank a.2 = rank b.2)) as [E|N].
  - destruct (Z.le_ge_cases a.1 b.1); [left|right]; right; split; done.
  - destruct (rank_le_total (rank b.2) (rank a.2));
      [left|right]; left; split; done.
Qed.

#[local] Instance highest_rank_first_trans : Transitive highest_rank_first.
Proof.
  intros a b c. unfold highest_rank_first.
  intros [[N1 L1]|[E1 K1]] [[N2 L2]|[E2 K2]].
  - left. split; [|by eapply rank_le_trans].
    intros E. apply N2. apply rank_le_antisym; [done|by rewrite E].
  - left. by rewrite <- E2.
  - left. by rewrite E1.
  - right. split; [congruence|lia].
Qed.

Lemma all_ranked_sorted qs : StronglySorted highest_rank_first (all_ranked qs).
Proof. apply StronglySorted_merge_sort; apply _. Qed.

(** In the rank order a row with a strictly greater rank comes first. *)
Lemma all_ranked_position qs a b (x y : Entity) :
  all_ranked qs !! a = Some x → all_ranked qs !! b = Some y →
  rank_le (rank y.2) (rank x.2) → rank y.2 ≠ rank x.2 →
  (a < b)%nat.
Proof.
  intros Ha Hb Hle Hne.
  destruct (decide (a < b)%nat) as [|Hge]; [done|]. exfalso.
  destruct (decide (a = b)) as [->|Hab].
  - rewrite Ha in Hb. injection Hb as ->. done.
  - pose proof (StronglySorted_lookup_lt _ _ (all_ranked_sorted qs)
                  b a y x ltac:(lia) Hb Ha) as [[N L]|[E _]].
    + apply N. by apply rank_le_antisym.
    + done.
Qed.

(** X15: the rank listing puts the higher score first.  Of two stored
    quotes whose rank keys are consistent with their [created] and
    [votesum] and whose scores lie from [0] up to [10^20], the one with
    the greater score stands earlier in the rank order; with equal
    scores, the one with the greater [creation_order] does. *)
Theorem all_ranked_by_score (qs : gmap Z Quote) (a b : nat) (i j : Z)
    (qi qj : Quote) :
  all_ranked qs !! a = Some (i, qi) →
  all_ranked qs !! b = Some (j, qj) →
  rank_consistent qi → rank_consistent qj →
  0 ≤ score qi < 10 ^ 20 → 0 ≤ score qj < 10 ^ 20 →
  score qj < score qi
  ∨ (score qj = score qi
     ∧ str_lt (creation_order qj) (creation_order qi)) →
  (a < b)%nat.
Proof.
  unfold rank_consistent, score, str_lt. intros Ha Hb Ri Rj Si Sj Hord.
  assert (String.compare
            (rank_of (created qj) (votesum qj) (creation_order qj))
            (rank_of (created qi) (votesum qi) (creation_order qi)) = Lt)
    as Hlt.
  { rewrite rank_of_compare_aux by done.
    destruct Hord as [H|[-> H]].
    - by apply Z.compare_lt_iff in H as ->.
    - by rewrite Z.compare_refl. }
  apply (all_ranked_position qs a b (i, qi) (j, qj) Ha Hb); cbn.
  - rewrite Ri, Rj. cbn. unfold String.le, String.leb. by rewrite Hlt.
  - rewrite Ri, Rj. intros [= E]. rewrite E, string_compare_refl in Hlt.
    done.
Qed.

(** X16: a quote that has no rank key yet (never changed by a vote)
    stands after every quote that has one in the rank order. *)
Theorem all_ranked_unranked_last (qs : gmap Z Quote) (a b : nat) (i j : Z)
    (qi qj : Quote) (r : string) :
  all_ranked qs !! a = Some (i, qi) →
  all_ranked qs !! b = Some (j, qj) →
  rank qi = Some r → rank qj = None →
  (a < b)%nat.
Proof.
  intros Ha Hb Ri Rj.
  apply (all_ranked_position qs a b (i, qi) (j, qj) Ha Hb); cbn.
  - by rewrite Rj.
  - by rewrite Ri, Rj.
Qed.

Lemma all_ranked_by_score_witness :
  ∃ qi qj,
    all_ranked (quotes voting_store) !! 0%nat = Some (3, qi)
    ∧ all_ranked (quotes voting_store) !! 2%nat = Some (2, qj)
    ∧ rank_consistent qi ∧ rank_consistent qj
    ∧ 0 ≤ score qi < 10 ^ 20 ∧ 0 ≤ score qj < 10 ^ 20
    ∧ (score qj < score qi
       ∨ (score qj = score qi
          ∧ str_lt (creation_order qj) (creation_order qi)))
    ∧ (0 < 2)%nat.
Proof.
  assert (∃ qi qj,
    all_ranked (quotes voting_store) !! 0%nat = Some (3, qi)
    ∧ all_ranked (quotes voting_store) !! 2%nat = Some (2, qj)
    ∧ rank_consistent qi ∧ rank_consistent qj
    ∧ 0 ≤ score qi < 10 ^ 20 ∧ 0 ≤ score qj < 10 ^ 20
    ∧ (score qj < score qi
       ∨ (score qj = score qi
          ∧ str_lt (creation_order qj) (creation_order qi))))
    as (qi & qj & Ha & Hb & Ri & Rj & Si & Sj & Hord).
  { eexists _, _. split; [vm_compute; reflexivity|].
    split; [vm_compute; reflexivity|].
    split; [vm_compute; reflexivity|]. split; [vm_compute; reflexivity|].
    split; [vm_compute; split; congruence|].
    split; [vm_compute; split; congruence|].
    left. vm_compute. reflexivity. }
  exists qi, qj. do 7 (split; [assumption|]).
  exact (all_ranked_by_score (quotes voting_store) 0 2 3 2 qi qj
           Ha Hb Ri Rj Si Sj Hord).
Defined.

Lemma all_ranked_unranked_last_witness :
  ∃ qi qj r,
    all_ranked (quotes voting_store) !! 2%nat = Some (2, qi)
    ∧ all_ranked (quotes voting_store) !! 3%nat = Some (4, qj)
    ∧ rank qi = Some r ∧ rank qj = None
    ∧ (2 < 3)%nat.
Proof.
  assert (∃ qi qj r,
    all_ranked (quotes voting_store) !! 2%nat = Some (2, qi)
    ∧ all_ranked (quotes voting_store) !! 3%nat = Some (4, qj)
    ∧ rank qi = Some r ∧ rank qj = None)
    as (qi & qj & r & Ha & Hb & Ri & Rj).
  { eexists _, _, _. split; [vm_compute; reflexivity|].
    split; [vm_compute; reflexivity|]. split; vm_compute; reflexivity. }
  exists qi, qj, r. do 4 (split; [assumption|]).
  exact (all_ranked_unranked_last (quotes voting_store) 2 3 2 4 qi qj r
           Ha Hb Ri Rj).
Defined.

(** ** Invariants over sequences of calls *)

Lemma vote_total_insert_other (vs : gmap VoteKey Vote) (p : option Z)
    (e : string) (w : Vote) (j : Z) :
  p ≠ Some j → vote_total (<[(p, e) := w]> vs) j = vote_total vs j.
Proof.
  intros Hp. unfold vote_total.
  destruct (vs !! (p, e)) as [w0|] eqn:E.
  - rewrite <- (insert_delete_eq vs).
    rewrite map_fold_insert_L.
    + rewrite (map_fold_delete_L _ _ (p, e) w0 vs).
      * cbn. by rewrite !decide_False by done.
      * intros. apply vote_total_comm.
      * done.
    + intros. apply vote_total_comm.
    + apply lookup_delete_eq.
  - rewrite map_fold_insert_L.
    + cbn. by rewrite decide_False by done.
    + intros. apply vote_total_comm.
    + done.
Qed.

Lemma vote_total_fresh (vs : gmap VoteKey Vote) (i : Z) :
  (∀ e w, vs !! (Some i, e) = Some w → False) → vote_total vs i = 0.
Proof.
  unfold vote_total.
  apply (map_fold_weak_ind
           (λ r (m : gmap VoteKey Vote),
              (∀ e w, m !! (Some i, e) = Some w → False) → r = 0)).
  - done.
  - intros [p e] w m r Hnone IH Hfree. cbn.
    destruct (decide (p = Some i)) as [->|Hp].
    + exfalso. apply (Hfree e w). apply lookup_insert_eq.
    + apply IH. intros e' w' Hl. apply (Hfree e' w').
      rewrite lookup_insert_ne; [done|]. intros [=]. done.
Qed.

Lemma add_quote_empty md5 now u uri_ _created st :
  ∃ st',
    add_quote md5 now "" (Some u) uri_ _created st = (Returned None, st')
    ∧ quotes st' = quotes st ∧ votes st' = votes st
    ∧ next_id st' = next_id st ∧ memcache st' = memcache st
    ∧ voters st'
      = <[email u := mkVoter (count (voter_of st (email u)) + 1)
                       (hasVoted (voter_of st (email u))) true]>
          (voters st).
Proof.
  unfold add_quote, try_except_db_Error. unfold bind at 1.
  destruct (unique_user_effect md5 u st) as (st1 & -> & Eq & Ev & En & Em & Ew).
  unfold new_Quote, bind, ret, raise. cbn.
  exists st1. by repeat split.
Qed.

(** What any [add_quote] call does to quotes, votes, ids and cache. *)
Lemma add_quote_effect md5 now text user uri_ _created st :
  votes (add_quote md5 now text user uri_ _created st).2 = votes st
  ∧ memcache (add_quote md5 now text user uri_ _created st).2 = memcache st
  ∧ ((quotes (add_quote md5 now text user uri_ _created st).2 = quotes st
      ∧ next_id (add_quote md5 now text user uri_ _created st).2
        = next_id st)
     ∨ ∃ q,
         quotes (add_quote md5 now text user uri_ _created st).2
         = <[next_id st := q]> (quotes st)
         ∧ next_id (add_quote md5 now text user uri_ _created st).2
           = next_id st + 1
         ∧ votesum q = 0 ∧ rank q = None).
Proof.
  destruct user as [u|]; [|by split; [|split; [|left]]].
  destruct (decide (text = "")) as [->|Htext].
  - destruct (add_quote_empty md5 now u uri_ _created st)
      as (st1 & -> & Eq & Ev & En & Em & Ew).
    split; [done|]. split; [done|]. by left.
  - destruct (add_quote_success md5 now text u uri_ _created st Htext)
      as (st' & -> & Eq & Ev & En & Em & _).
    split; [done|]. split; [done|]. right. eexists. by repeat split.
Qed.

Lemma del_quote_effect is_admin qid user st :
  votes (del_quote is_admin qid user st).2 = votes st
  ∧ voters (del_quote is_admin qid user st).2 = voters st
  ∧ next_id (del_quote is_admin qid user st).2 = next_id st
  ∧ memcache (del_quote is_admin qid user st).2 = memcache st
  ∧ (quotes (del_quote is_admin qid user st).2 = quotes st
     ∨ quotes (del_quote is_admin qid user st).2 = delete qid (quotes st)).
Proof.
  unfold del_quote, Quote_get_by_id, delete_quote, bind, log, ret. cbn.
  destruct (quotes st !! qid) as [q|]; cbn; [|by repeat split; left].
  destruct (is_admin || bool_decide (creator q = user)); cbn.
  - repeat split; by right.
  - repeat split; by left.
Qed.

Lemma get_quotes_same_data page st : same_data st (get_quotes page st).2.
Proof.
  unfold get_quotes, assert. unfold bind at 1 2.
  destruct (0 <=? page); [|by repeat split].
  destruct (page <? 20); [|by repeat split].
  cbn [ret]. unfold query_rank, bind, log, ret. cbn -[select_ranked].
  destruct (PAGE_SIZE <? len _); [|by repeat split].
  destruct (page <? 19); [|by repeat split].
  unfold last_item. destruct (last _); by repeat split.
Qed.

Lemma get_quotes_newest_same_data offset st :
  same_data st (get_quotes_newest offset st).2.
Proof.
  rewrite get_quotes_newest_unfold. cbn zeta.
  destruct (PAGE_SIZE <? len _); [|by repeat split].
  destruct (last _); by repeat split.
Qed.

Lemma get_progress_same_data user st : same_data st (get_progress user st).2.
Proof.
  destruct user as [u|]; [|by repeat split].
  unfold get_progress, _get_or_create_voter, Voter_get_by_key_name,
    user_email, bind, log, ret. cbn.
  destruct (voters st !! email u); by repeat split.
Qed.

Lemma get_quote_same_data qid st : same_data st (get_quote qid st).2.
Proof. by repeat split. Qed.

(** Only the vote store, quote store and cache matter to consistency. *)
Lemma store_consistent_same st st' :
  quotes st' = quotes st → votes st' = votes st →
  next_id st' = next_id st → memcache st' = memcache st →
  store_consistent st → store_consistent st'.
Proof.
  intros Eq Ev En Em (H1 & H2 & H3 & H4 & H5).
  unfold store_consistent, ids_allocated, cache_coherent, prior_vote.
  rewrite Eq, Ev, En, Em. done.
Qed.

Lemma store_consistent_empty : store_consistent empty_store.
Proof.
  split; [apply ids_allocated_empty|].
  split. { intros p e w Hl. cbn in Hl. by rewrite lookup_empty in Hl. }
  split. { intros i q Hl. cbn in Hl. by rewrite lookup_empty in Hl. }
  split. { intros i q Hl. cbn in Hl. by rewrite lookup_empty in Hl. }
  by apply cache_coherent_empty.
Qed.

Lemma set_vote_consistent qid user v st :
  store_consistent st → store_consistent (set_vote qid user v st).2.
Proof.
  intros Hc. pose proof (set_vote_coherent qid user v st) as Hcoh.
  destruct Hc as (H1 & H2 & H3 & H4 & H5). specialize (Hcoh H5).
  destruct (set_vote_effect qid user v st) as [En H].
  destruct H as [(Eq & Ev & Em)|(u & q & _ & Hq & _ & Eq & Ev & Em)].
  - apply (store_consistent_same st); [done..|]. by repeat split.
  - pose proof (H1 _ _ Hq) as Hlt.
    split; [|split; [|split; [|split; [|done]]]].
    + intros i q'. rewrite Eq, En. intros Hl.
      destruct (decide (i = qid)) as [->|Hne]; [done|].
      rewrite lookup_insert_ne in Hl by done. by eapply H1.
    + intros p e w. rewrite Ev, En. intros Hl.
      destruct (decide ((Some qid, email u) = (p, e))) as [[= <- <-]|Hne].
      * by exists qid.
      * rewrite lookup_insert_ne in Hl by done. by eapply H2.
    + intros i q'. rewrite Eq, Ev. intros Hl.
      destruct (decide (i = qid)) as [->|Hne].
      * rewrite lookup_insert_eq in Hl. injection Hl as <-.
        rewrite vote_total_insert. cbn [votesum revoted].
        rewrite (H3 _ _ Hq). unfold prior_vote. lia.
      * rewrite lookup_insert_ne in Hl by done.
        rewrite vote_total_insert_other; [by apply H3|]. intros [=]. done.
    + intros i q'. rewrite Eq. intros Hl.
      destruct (decide (i = qid)) as [->|Hne].
      * rewrite lookup_insert_eq in Hl. injection Hl as <-. by left.
      * rewrite lookup_insert_ne in Hl by done. by eapply H4.
Qed.

Lemma add_quote_consistent md5 now text user uri_ _created st :
  store_consistent st →
  store_consistent (add_quote md5 now text user uri_ _created st).2.
Proof.
  intros Hc.
  destruct (add_quote_effect md5 now text user uri_ _created st)
    as (Ev & Em & H).
  destruct H as [[Eq En]|(q0 & Eq & En & Hv0 & Hr0)].
  - by apply (store_consistent_same st).
  - destruct Hc as (H1 & H2 & H3 & H4 & H5).
    split; [|split; [|split; [|split]]].
    + intros i q. rewrite Eq, En. intros Hl.
      destruct (decide (i = next_id st)) as [->|Hne]; [lia|].
      rewrite lookup_insert_ne in Hl by done. apply H1 in Hl. lia.
    + intros p e w. rewrite Ev, En. intros Hl.
      destruct (H2 _ _ _ Hl) as (i & -> & Hi). exists i. split; [done|lia].
    + intros i q. rewrite Eq, Ev. intros Hl.
      destruct (decide (i = next_id st)) as [->|Hne].
      * rewrite lookup_insert_eq in Hl. injection Hl as <-.
        rewrite Hv0. symmetry. apply vote_total_fresh.
        intros e w Hw. destruct (H2 _ _ _ Hw) as (j & [= <-] & Hj). lia.
      * rewrite lookup_insert_ne in Hl by done. by apply H3.
    + intros i q. rewrite Eq. intros Hl.
      destruct (decide (i = next_id st)) as [->|Hne].
      * rewrite lookup_insert_eq in Hl. injection Hl as <-. by right.
      * rewrite lookup_insert_ne in Hl by done. by eapply H4.
    + intros e q v. unfold prior_vote. rewrite Em, Ev. apply H5.
Qed.

Lemma del_quote_consistent is_admin qid user st :
  store_consistent st → store_consistent (del_quote is_admin qid user st).2.
Proof.
  intros Hc.
  destruct (del_quote_effect is_admin qid user st)
    as (Ev & _ & En & Em & [Eq|Eq]).
  - by apply (store_consistent_same st).
  - destruct Hc as (H1 & H2 & H3 & H4 & H5).
    split; [|split; [|split; [|split]]].
    + intros i q. rewrite Eq, En. intros Hl%lookup_delete_Some.
      destruct Hl as [_ Hl]. by eapply H1.
    + intros p e w. rewrite Ev, En. apply H2.
    + intros i q. rewrite Eq, Ev. intros Hl%lookup_delete_Some.
      destruct Hl as [_ Hl]. by apply H3.
    + intros i q. rewrite Eq. intros Hl%lookup_delete_Some.
      destruct Hl as [_ Hl]. by eapply H4.
    + intros e q v. unfold prior_vote. rewrite Em, Ev. apply H5.
Qed.

Lemma voted_consistent qid user st :
  store_consistent st → store_consistent (voted qid user st).2.
Proof.
  intros (H1 & H2 & H3 & H4 & H5).
  pose proof (voted_coherent qid user st H5) as Hcoh.
  assert (quotes (voted qid user st).2 = quotes st
          ∧ votes (voted qid user st).2 = votes st
          ∧ next_id (voted qid user st).2 = next_id st) as (Eq & Ev & En).
  { destruct user as [u|]; [|done].
    pose proof (voted_effect qid u st) as H. cbn zeta in H.
    destruct (memcache st !! memcachekey_of (email u) qid).
    - by destruct H as (st' & -> & (? & ? & ? & ? & ?)).
    - destruct (votes st !! (Some qid, email u)).
      + by destruct H as (st' & -> & ? & ? & ? & ? & ?).
      + by destruct H as (st' & -> & (? & ? & ? & ? & ?)). }
  unfold store_consistent, ids_allocated. rewrite Eq, Ev, En. done.
Qed.

Lemma run_request_consistent md5 r st :
  store_consistent st → store_consistent (run_request md5 r st).
Proof.
  intros Hc. destruct r; cbn [run_request].
  - by apply add_quote_consistent.
  - by apply del_quote_consistent.
  - destruct (get_quote_same_data quote_id st) as (?&?&?&?&?).
    by apply (store_consistent_same st).
  - destruct (get_quotes_newest_same_data offset st) as (?&?&?&?&?).
    by apply (store_consistent_same st).
  - by apply set_vote_consistent.
  - destruct (get_quotes_same_data page st) as (?&?&?&?&?).
    by apply (store_consistent_same st).
  - by apply voted_consistent.
  - destruct (get_progress_same_data user st) as (?&?&?&?&?).
    by apply (store_consistent_same st).
Qed.

(** X17: the invariants of the data model hold in every state reached
    from the empty store by any sequence of calls of [add_quote],
    [del_quote], [get_quote], [get_quotes_newest], [set_vote],
    [get_quotes], [voted] and [get_progress], with any arguments and
    whether the calls return or raise: every stored quote has [votesum]
    equal to the sum of the votes stored under it, its rank key is the one
    computed from its [created], [votesum] and [creation_order] or is
    still unset with [votesum = 0], every vote hangs under an allocated
    quote id, and every cache entry agrees with the stored vote. *)
Theorem reachable_store_consistent (md5 : string → string)
    (rs : list Request) :
  store_consistent (run_requests md5 rs empty_store).
Proof.
  unfold run_requests.
  assert (∀ st, store_consistent st →
                store_consistent (foldl (λ s r, run_request md5 r s) st rs))
    as H.
  { induction rs as [|r rs IH]; intros st Hc; [done|].
    cbn [foldl]. apply IH. by apply run_request_consistent. }
  apply H, store_consistent_empty.
Qed.

(** ** Progress flags *)

Lemma progress_kept_refl st : progress_kept st st.
Proof. intros e w Hl. exists w. by repeat split. Qed.

Lemma progress_kept_trans st1 st2 st3 :
  progress_kept st1 st2 → progress_kept st2 st3 → progress_kept st1 st3.
Proof.
  intros H12 H23 e w Hl.
  destruct (H12 e w Hl) as (w2 & Hl2 & ? & ? & ?).
  destruct (H23 e w2 Hl2) as (w3 & Hl3 & ? & ? & ?).
  exists w3. split; [done|]. split; [lia|]. split; auto.
Qed.

Lemma progress_kept_same st st' : voters st' = voters st → progress_kept st st'.
Proof. intros E e w Hl. exists w. rewrite E. by repeat split. Qed.

Lemma progress_kept_insert st st' e w' :
  voters st' = <[e := w']> (voters st) →
  count (voter_of st e) ≤ count w' →
  (hasVoted (voter_of st e) = true → hasVoted w' = true) →
  (hasAddedQuote (voter_of st e) = true → hasAddedQuote w' = true) →
  progress_kept st st'.
Proof.
  intros E Hc Hv Ha e0 w Hl. rewrite E.
  destruct (decide (e0 = e)) as [->|Hne].
  - exists w'. rewrite lookup_insert_eq. unfold voter_of in *.
    rewrite Hl in Hc, Hv, Ha. by repeat split.
  - exists w. rewrite lookup_insert_ne by done. by repeat split.
Qed.

Lemma set_vote_txn_voters qid u v st :
  voters (run_in_transaction (set_vote_txn qid u v) st).2 = voters st.
Proof.
  unfold run_in_transaction, set_vote_txn, Quote_get_by_id,
    Vote_get_by_key_name, put_vote, put_quote, memcache_set, bind, log, ret,
    raise. cbn.
  destruct (quotes st !! qid) as [q|]; cbn;
    destruct (votes st !! _) as [w|]; cbn;
    destruct (decide _); done.
Qed.

(** What [set_vote] does to the [Voter] kind: nothing when it raises,
    and the flag of the caller when it returns. *)
Lemma set_vote_voters qid u v st out st1 :
  set_vote qid (Some u) v st = (out, st1) →
  voters st1
  = match out with
    | Returned _ =>
        if hasVoted (voter_of st (email u)) then voters st
        else <[email u := mkVoter (count (voter_of st (email u))) true
                            (hasAddedQuote (voter_of st (email u)))]>
               (voters st)
    | Raised _ => voters st
    end.
Proof.
  unfold set_vote, bind.
  pose proof (set_vote_txn_voters qid u v st) as Hv.
  destruct (run_in_transaction (set_vote_txn qid u v) st) as [[[]|e] st0];
    cbn [fst snd] in *.
  - destruct (set_progress_hasVoted_spec u st0) as (st' & E & _).
    pose proof (set_progress_hasVoted_voters u st0) as Hw.
    rewrite E in Hw |- *. cbn [fst snd] in Hw. intros [= <- <-].
    rewrite Hv in Hw. rewrite Hw.
    unfold voter_of. destruct (voters st !! email u) as [w|]; [|done].
    by destruct (hasVoted w).
  - by intros [= <- <-].
Qed.

Lemma add_quote_voters md5 now text user uri_ _created st :
  match user with
  | Some u =>
      voters (add_quote md5 now text user uri_ _created st).2
      = <[email u := mkVoter (count (voter_of st (email u)) + 1)
                       (hasVoted (voter_of st (email u))) true]>
          (voters st)
  | None => voters (add_quote md5 now text user uri_ _created st).2
            = voters st
  end.
Proof.
  destruct user as [u|]; [|done].
  destruct (decide (text = "")) as [->|Htext].
  - by destruct (add_quote_empty md5 now u uri_ _created st)
      as (st1 & -> & _ & _ & _ & _ & Ew).
  - by destruct (add_quote_success md5 now text u uri_ _created st Htext)
      as (st' & -> & _ & _ & _ & _ & Ew).
Qed.

Lemma voted_voters qid user st : voters (voted qid user st).2 = voters st.
Proof.
  destruct user as [u|]; [|done].
  pose proof (voted_effect qid u st) as H. cbn zeta in H.
  destruct (memcache st !! memcachekey_of (email u) qid).
  - by destruct H as (st' & -> & (? & ? & ? & ? & ?)).
  - destruct (votes st !! (Some qid, email u)).
    + by destruct H as (st' & -> & ? & ? & ? & ? & ?).
    + by destruct H as (st' & -> & (? & ? & ? & ? & ?)).
Qed.

Lemma run_request_progress md5 r st : progress_kept st (run_request md5 r st).
Proof.
  destruct r; cbn [run_request].
  - pose proof (add_quote_voters md5 now text user uri_ _created st) as H.
    destruct user as [u|]; [|by apply progress_kept_same].
    eapply progress_kept_insert; [exact H|cbn; lia|done..].
  - apply progress_kept_same. by destruct (del_quote_effect is_admin quote_id user st) as (_ & ? & _).
  - by apply progress_kept_same.
  - apply progress_kept_same.
    by destruct (get_quotes_newest_same_data offset st) as (_ & _ & ? & _).
  - destruct user as [u|]; [|by apply progress_kept_same].
    destruct (set_vote quote_id (Some u) newvote st) as [out st1] eqn:E.
    pose proof (set_vote_voters _ _ _ _ _ _ E) as H. cbn [snd].
    destruct out; [|by apply progress_kept_same].
    destruct (hasVoted (voter_of st (email u))) eqn:Hh;
      [by apply progress_kept_same|].
    eapply progress_kept_insert; [exact H|cbn; lia|done..].
  - apply progress_kept_same.
    by destruct (get_quotes_same_data page st) as (_ & _ & ? & _).
  - apply progress_kept_same, voted_voters.
  - apply progress_kept_same.
    by destruct (get_progress_same_data user st) as (_ & _ & ? & _).
Qed.

Lemma run_requests_progress md5 rs : ∀ st,
  progress_kept st (run_requests md5 rs st).
Proof.
  unfold run_requests. induction rs as [|r rs IH]; intros st.
  - apply progress_kept_refl.
  - cbn [foldl]. eapply progress_kept_trans; [|apply IH].
    apply run_request_progress.
Qed.

(** X18: no sequence of calls of the functions of [models.py] ever
    deletes a [Voter], lowers its counter or clears one of its flags:
    [hasVoted] and [hasAddedQuote], once set, stay set. *)
Theorem progress_never_lost (md5 : string → string) (rs : list Request)
    (st : Store) :
  progress_kept st (run_requests md5 rs st).
Proof. apply run_requests_progress. Qed.

Lemma get_progress_value u st :
  (get_progress (Some u) st).1
  = Returned (hasVoted (voter_of st (email u)),
              hasAddedQuote (voter_of st (email u))).
Proof.
  unfold get_progress, _get_or_create_voter, Voter_get_by_key_name,
    user_email, voter_of, bind, log, ret. cbn.
  by destruct (voters st !! email u).
Qed.

(** X19: once a [set_vote] call of a signed-in user has returned, whether
    it changed a vote or not, [get_progress] reports [hasVoted] for that
    user, at once and after any further sequence of calls. *)
Theorem set_vote_sets_hasVoted (md5 : string → string) (quote_id : Z)
    (u : User) (newvote : Z) (st st1 : Store) (rs : list Request) :
  set_vote quote_id (Some u) newvote st = (Returned tt, st1) →
  ∃ added,
    (get_progress (Some u) (run_requests md5 rs st1)).1
    = Returned (true, added).
Proof.
  intros E. rewrite get_progress_value.
  pose proof (set_vote_voters _ _ _ _ _ _ E) as H. cbn beta iota in H.
  assert (∃ w, voters st1 !! email u = Some w ∧ hasVoted w = true)
    as (w & Hw & Hv).
  { unfold voter_of in H. destruct (voters st !! email u) as [w|] eqn:Hl.
    - destruct (hasVoted w) eqn:Hh; cbn in H.
      + exists w. by rewrite H.
      + eexists. rewrite H, lookup_insert_eq. done.
    - eexists. cbn in H. rewrite H, lookup_insert_eq. done. }
  destruct (run_requests_progress md5 rs st1 _ _ Hw) as (w' & Hw' & _ & Hv' & _).
  unfold voter_of. rewrite Hw'. rewrite (Hv' Hv). by eexists.
Qed.

Lemma set_vote_sets_hasVoted_witness :
  ∃ st1,
    set_vote 1 (Some barney) 1 busy_store = (Returned tt, st1)
    ∧ ∃ added,
        (get_progress (Some barney)
           (run_requests sample_digest
              [ReqDelQuote false 1 (Some fred); ReqGetQuotes 0] st1)).1
        = Returned (true, added).
Proof.
  destruct (set_vote 1 (Some barney) 1 busy_store) as [out st1] eqn:E.
  assert (out = Returned tt) as ->.
  { apply (f_equal fst) in E. vm_compute in E. congruence. }
  exists st1. split; [reflexivity|].
  exact (set_vote_sets_hasVoted sample_digest 1 barney 1 busy_store st1
           [ReqDelQuote false 1 (Some fred); ReqGetQuotes 0] E).
Defined.

(** X20: after any [add_quote] call of a signed-in user, successful or
    not, [get_progress] reports [hasAddedQuote] for that user, at once
    and after any further sequence of calls; a call that failed on an
    empty text counts as well. *)
Theorem add_quote_sets_hasAddedQuote (md5 : string → string)
    (now : DateTime) (text : string) (u : User) (uri_ : option string)
    (_created : option Z) (st : Store) (rs : list Request) :
  ∃ has_voted,
    (get_progress (Some u)
       (run_requests md5 rs
          (add_quote md5 now text (Some u) uri_ _created st).2)).1
    = Returned (has_voted, true).
Proof.
  rewrite get_progress_value.
  pose proof (add_quote_voters md5 now text (Some u) uri_ _created st) as H.
  cbn beta iota in H.
  assert (∃ w, voters (add_quote md5 now text (Some u) uri_ _created st).2
               !! email u = Some w ∧ hasAddedQuote w = true)
    as (w & Hw & Ha).
  { eexists. rewrite H, lookup_insert_eq. done. }
  destruct (run_requests_progress md5 rs _ _ _ Hw) as (w' & Hw' & _ & _ & Ha').
  unfold voter_of. rewrite Hw'. rewrite (Ha' Ha). by eexists.
Qed.

(** ** The template values of [main.py] *)

Lemma entities_kept_refl st : entities_kept st st.
Proof. by repeat split. Qed.

Lemma entities_kept_trans st1 st2 st3 :
  entities_kept st1 st2 → entities_kept st2 st3 → entities_kept st1 st3.
Proof.
  intros (?&?&?&?&?) (?&?&?&?&?). repeat split; try congruence. auto.
Qed.

Lemma same_data_kept st st' : same_data st st' → entities_kept st st'.
Proof.
  intros (Eq & Ev & Ew & En & Em). repeat split; try done.
  intros Hc e q v. unfold prior_vote. rewrite Ev, Em. apply Hc.
Qed.

(** [voted] always returns; it keeps the entities, and with a coherent
    cache it returns the stored vote. *)
Lemma voted_total qid user st :
  ∃ v st',
    voted qid user st = (Returned v, st')
    ∧ entities_kept st st'
    ∧ (cache_coherent st → v = stored_vote st qid user).
Proof.
  destruct user as [u|].
  2: { exists 0, st. split; [done|]. split; [apply entities_kept_refl|done]. }
  pose proof (voted_coherent qid (Some u) st) as Hcoh.
  pose proof (voted_effect qid u st) as H. cbn zeta in H.
  unfold stored_vote, prior_vote.
  destruct (memcache st !! memcachekey_of (email u) qid) as [v|] eqn:Em.
  - destruct H as (st' & E & (? & ? & ? & ? & ?)). rewrite E in Hcoh.
    exists v, st'. split; [done|]. split; [by repeat split|].
    intros Hc. symmetry. by apply Hc.
  - destruct (votes st !! (Some qid, email u)) as [w|] eqn:Ew.
    + destruct H as (st' & E & ? & ? & ? & ? & ?). rewrite E in Hcoh.
      exists (vote w), st'. split; [done|]. split; [by repeat split|done].
    + destruct H as (st' & E & (? & ? & ? & ? & ?)). rewrite E in Hcoh.
      exists 0, st'. split; [done|]. split; [by repeat split|done].
Qed.

Lemma stored_vote_kept st st' qid user :
  votes st' = votes st → stored_vote st' qid user = stored_vote st qid user.
Proof. intros E. destruct user; [|done]. cbn. unfold prior_vote. by rewrite E. Qed.

Lemma quote_for_template_loop_spec quotes_ user : ∀ index st,
  ∃ entries st',
    quote_for_template_loop quotes_ user index st = (Returned entries, st')
    ∧ entities_kept st st'
    ∧ length entries = length quotes_
    ∧ ∀ k e, quotes_ !! k = Some e →
        ∃ t, entries !! k = Some t
          ∧ tpl_index t = index + Z.of_nat k
          ∧ tpl_id t = e.1
          ∧ tpl_quote t = quote e.2
          ∧ tpl_votesum t = votesum e.2
          ∧ tpl_created t = String.substring 0 10 (creation_order e.2)
          ∧ (cache_coherent st → tpl_voted t = stored_vote st e.1 user).
Proof.
  induction quotes_ as [|e0 rest IH]; intros index st.
  - exists [], st. split; [done|]. split; [apply entities_kept_refl|].
    split; [done|]. intros k e Hk. done.
  - cbn [quote_for_template_loop]. unfold bind at 1.
    destruct (voted_total e0.1 user st) as (v & st1 & -> & Hk1 & Hv).
    unfold bind at 1.
    destruct (IH (index + 1) st1) as (entries & st' & -> & Hk2 & Hlen & Hent).
    eexists _, st'. split; [reflexivity|].
    split; [by eapply entities_kept_trans|].
    split; [cbn; by rewrite Hlen|].
    intros [|k] e Hk; cbn in Hk.
    + injection Hk as <-. eexists. split; [reflexivity|]. cbn.
      split; [lia|]. by repeat split.
    + destruct (Hent k e Hk) as (t & Ht & Hi & ? & ? & ? & ? & Hvt).
      exists t. split; [done|]. split; [lia|]. repeat split; try done.
      intros Hc. destruct Hk1 as (_ & Ev & _ & _ & Hc1).
      rewrite Hvt by auto. by apply stored_vote_kept.
Qed.





Lemma get_progress_returns u st :
  ∃ st',
    get_progress (Some u) st
    = (Returned (hasVoted (voter_of st (email u)),
                 hasAddedQuote (voter_of st (email u))), st')
    ∧ same_data st st'.
Proof.
  unfold get_progress, _get_or_create_voter, Voter_get_by_key_name,
    user_email, voter_of, bind, log, ret. cbn.
  destruct (voters st !! email u); eexists; (split; [reflexivity|]);
    by repeat split.
Qed.

(** The greeting always returns and only reads the [Voter] of the
    current user. *)
Lemma get_greeting_returns nickname logout login escape ctx st :
  ∃ g st',
    get_greeting nickname logout login escape ctx st = (Returned g, st')
    ∧ same_data st st'.
Proof.
  unfold get_greeting. destruct (current_user ctx) as [u|].
  - unfold bind. destruct (get_progress_returns u st) as (st' & -> & Hs).
    eexists _, st'. by split.
  - eexists _, st. split; [reflexivity|apply same_data_refl].
Qed.

(** X22: the [progress_id] of [get_greeting] is the bit field its
    docstring describes: bit 0 is always set, bit 1 is set exactly when a
    user is signed in, bit 2 exactly when that user's [hasVoted] flag is
    set and bit 3 exactly when their [hasAddedQuote] flag is set; no other
    bit is set, and the progress message is empty exactly when bit 2 or
    bit 3 is set.  The call only reads. *)
Theorem get_greeting_progress_bits (nickname : User → string)
    (logout login escape : string → string) (ctx : RequestContext)
    (st : Store) :
  ∃ progress_id progress_msg greeting st',
    get_greeting nickname logout login escape ctx st
    = (Returned (progress_id, progress_msg, greeting), st')
    ∧ same_data st st'
    ∧ Z.testbit progress_id 0 = true
    ∧ Z.testbit progress_id 1
      = match current_user ctx with Some _ => true | None => false end
    ∧ Z.testbit progress_id 2
      = match current_user ctx with
        | Some u => hasVoted (voter_of st (email u))
        | None => false
        end
    ∧ Z.testbit progress_id 3
      = match current_user ctx with
        | Some u => hasAddedQuote (voter_of st (email u))
        | None => false
        end
    ∧ 1 ≤ progress_id ≤ 15
    ∧ (progress_msg = ""
       ↔ Z.testbit progress_id 2 || Z.testbit progress_id 3 = true).
Proof.
  unfold get_greeting. destruct (current_user ctx) as [u|].
  - unfold bind. destruct (get_progress_returns u st) as (st' & -> & Hs).
    cbn [fst snd ret].
    destruct (hasVoted (voter_of st (email u))),
      (hasAddedQuote (voter_of st (email u)));
      eexists _, _, _, st'; (split; [reflexivity|]); (split; [done|]);
      cbn; repeat split; (lia || done).
  - eexists _, _, _, st. split; [reflexivity|]. split; [apply same_data_refl|].
    cbn. repeat split; (lia || done).
Qed.

Lemma create_template_dict_returns nickname logout login escape ctx
    user quotes_ section nexturi prevuri page st :
  ∃ values st',
    create_template_dict nickname logout login escape ctx user quotes_
      section nexturi prevuri page st
    = (Returned values, st')
    ∧ entities_kept st st'
    ∧ tv_loggedin values = user
    ∧ tv_section values = section
    ∧ tv_nexturi values = nexturi
    ∧ tv_prevuri values = prevuri
    ∧ length (tv_quotes values) = length quotes_.
Proof.
  unfold create_template_dict. unfold bind at 1.
  destruct (get_greeting_returns nickname logout login escape ctx st)
    as (g & st1 & -> & Hs1).
  unfold bind at 1. unfold quote_for_template.
  destruct (quote_for_template_loop_spec quotes_ user (1 + page * PAGE_SIZE) st1)
    as (entries & st' & -> & Hk & Hlen & _).
  eexists _, st'. split; [reflexivity|]. cbn.
  split; [|done]. eapply entities_kept_trans; [|exact Hk].
  by apply same_data_kept.
Qed.

(** X23: for a page number within [0 <= page < 20], [MainHandler.get]
    renders the index page and only reads entities.  A next link is
    offered exactly when the page is not the last allowed one and the rank
    order has a row beyond it, and it then leads to [page + 1], a page
    within the range that has at least one quote; the previous link leads
    to ["/"] from page 1, to [page - 1] from later pages and is absent on
    page 0.  So no link of the page leads to a request that fails the
    assertions of [get_quotes]. *)
Theorem MainHandler_get_links (nickname : User → string)
    (logout login escape : string → string) (ctx : RequestContext)
    (page : Z) (st : Store) :
  0 ≤ page < 20 →
  ∃ values st',
    MainHandler_get nickname logout login escape ctx page st
    = (Returned (Render "templates/index.html" values), st')
    ∧ entities_kept st st'
    ∧ tv_nexturi values
      = (if (page <? 19)
            && bool_decide (is_Some (all_ranked (quotes st)
                                       !! Z.to_nat ((page + 1) * PAGE_SIZE)))
         then Some ("/?p=" +:+ str (page + 1)) else None)
    ∧ tv_prevuri values
      = (if 1 <? page then Some ("/?p=" +:+ str (page - 1))
         else if page =? 1 then Some "/" else None)
    ∧ (is_Some (tv_nexturi values) → 0 ≤ page + 1 < 20)
    ∧ (is_Some (tv_prevuri values) → 0 ≤ page - 1 < 20)
    ∧ length (tv_quotes values)
      = length (take 20 (drop (Z.to_nat (page * PAGE_SIZE))
                           (all_ranked (quotes st)))).
Proof.
  intros Hp. unfold MainHandler_get. unfold bind at 1.
  destruct (get_quotes_slice (Z.to_nat page) st ltac:(lia)) as (st1 & E & Hs1).
  rewrite Z2Nat.id in E by lia. rewrite E. cbn [fst snd].
  replace (20 * S (Z.to_nat page))%nat
    with (Z.to_nat ((page + 1) * PAGE_SIZE)) by (unfold PAGE_SIZE; lia).
  replace (20 * Z.to_nat page)%nat
    with (Z.to_nat (page * PAGE_SIZE)) by (unfold PAGE_SIZE; lia).
  set (R := all_ranked (quotes st)).
  set (nexturi := match (if decide (Z.to_nat page < 19)%nat
                         then R !! Z.to_nat ((page + 1) * PAGE_SIZE)
                         else None) with
                  | Some _ => Some ("/?p=" +:+ str (page + 1))
                  | None => None
                  end).
  set (prevuri := if 1 <? page then Some ("/?p=" +:+ str (page - 1))
                  else if page =? 1 then Some "/" else None).
  unfold bind.
  destruct (create_template_dict_returns nickname logout login escape ctx
              (current_user ctx)
              (take 20 (drop (Z.to_nat (page * PAGE_SIZE)) R))
              "Popular" nexturi prevuri page st1)
    as (values & st' & -> & Hk & _ & _ & Hn & Hpv & Hlen).
  exists values, st'. split; [reflexivity|].
  split. { eapply entities_kept_trans; [|exact Hk]. by apply same_data_kept. }
  assert (nexturi
          = if (page <? 19)
               && bool_decide (is_Some (R !! Z.to_nat ((page + 1) * PAGE_SIZE)))
            then Some ("/?p=" +:+ str (page + 1)) else None) as Hnext.
  { unfold nexturi. destruct (decide _) as [H|H].
    - replace (page <? 19) with true by (symmetry; apply Z.ltb_lt; lia).
      destruct (R !! _); [by rewrite bool_decide_eq_true_2 by eauto|].
      rewrite bool_decide_eq_false_2; [done|]. by intros [? ?].
    - by replace (page <? 19) with false by (symmetry; apply Z.ltb_ge; lia). }
  rewrite Hn, Hpv, Hnext. split; [done|]. split; [done|].
  split.
  { destruct (page <? 19) eqn:E19; [|by intros [? ?]].
    apply Z.ltb_lt in E19. intros _. lia. }
  split; [|done].
  unfold prevuri. destruct (1 <? page) eqn:E1.
  - apply Z.ltb_lt in E1. intros _. lia.
  - destruct (page =? 1) eqn:E2; [|by intros [? ?]].
    apply Z.eqb_eq in E2. intros _. lia.
Qed.

Lemma MainHandler_get_links_witness :
  0 ≤ 0 < 20
  ∧ ∃ values st',
      MainHandler_get email sample_digest sample_digest sample_digest
        (mkRequestContext (Some fred) false clock) 0 busy_store
      = (Returned (Render "templates/index.html" values), st')
      ∧ entities_kept busy_store st'
      ∧ tv_nexturi values
        = (if (0 <? 19)
              && bool_decide (is_Some (all_ranked (quotes busy_store)
                                         !! Z.to_nat ((0 + 1) * PAGE_SIZE)))
           then Some ("/?p=" +:+ str (0 + 1)) else None)
      ∧ tv_prevuri values
        = (if 1 <? 0 then Some ("/?p=" +:+ str (0 - 1))
           else if 0 =? 1 then Some "/" else None)
      ∧ (is_Some (tv_nexturi values) → 0 ≤ 0 + 1 < 20)
      ∧ (is_Some (tv_prevuri values) → 0 ≤ 0 - 1 < 20)
      ∧ length (tv_quotes values)
        = length (take 20 (drop (Z.to_nat (0 * PAGE_SIZE))
                             (all_ranked (quotes busy_store)))).
Proof.
  assert (0 ≤ 0 < 20) as H by lia.
  split; [exact H|].
  exact (MainHandler_get_links email sample_digest sample_digest sample_digest
           (mkRequestContext (Some fred) false clock) 0 busy_store H).
Defined.

(** ** Submitting and voting through the handlers *)

Lemma substring_length_le n : ∀ s,
  (String.length (String.substring 0 n s) ≤ n)%nat.
Proof.
  induction n as [|n IH]; intros [|c s]; cbn; try lia.
  specialize (IH s). lia.
Qed.

Lemma submitted_text_length strip newtidbit :
  (String.length (submitted_text strip newtidbit) ≤ 500)%nat.
Proof.
  unfold submitted_text.
  destruct (500 <? String.length (strip newtidbit))%nat eqn:E.
  - apply substring_length_le.
  - by apply Nat.ltb_ge in E.
Qed.

Lemma link_accepted_check scheme netloc uri_ :
  link_accepted scheme netloc uri_ →
  negb (bool_decide (uri_ = ""))
  && (bool_decide (scheme uri_ = "") || bool_decide (netloc uri_ = ""))
  = false.
Proof.
  intros [->|[H1 H2]]; [done|].
  rewrite (bool_decide_eq_false_2 _ H1), (bool_decide_eq_false_2 _ H2).
  apply andb_false_r.
Qed.

(** The accepted path of [MainHandler.post], in full. *)
Lemma MainHandler_post_accepted md5 nickname logout login escape strip
    scheme netloc ctx newtidbit tidbituri st u :
  current_user ctx = Some u →
  submitted_text strip newtidbit ≠ "" →
  link_accepted scheme netloc (strip tidbituri) →
  (∀ e, votes st !! (Some (next_id st), e) = None) →
  ∃ st' q w,
    MainHandler_post md5 nickname logout login escape strip scheme netloc
      ctx newtidbit tidbituri st
    = (Returned (Redirect "/recent/"), st')
    ∧ quotes st' = <[next_id st := q]> (quotes st)
    ∧ next_id st' = next_id st + 1
    ∧ quote q = submitted_text strip newtidbit
    ∧ uri q = Some (strip tidbituri)
    ∧ creator q = Some u
    ∧ votesum q = 1
    ∧ rank_consistent q
    ∧ votes st' = <[(Some (next_id st), email u) := mkVote 1]> (votes st)
    ∧ memcache st'
      = <[memcachekey_of (email u) (next_id st) := 1]> (memcache st)
    ∧ voters st' !! email u = Some w
    ∧ hasVoted w = true ∧ hasAddedQuote w = true.
Proof.
  intros Hu Htext Hlink Hfresh. unfold MainHandler_post.
  fold (submitted_text strip newtidbit). rewrite Hu.
  destruct (decide (submitted_text strip newtidbit = "")) as [e|_];
    [by destruct Htext|].
  unfold bind at 1.
  destruct (get_greeting_returns nickname logout login escape ctx st)
    as (g & st1 & -> & (Eq1 & Ev1 & Ew1 & En1 & Em1)).
  rewrite (link_accepted_check _ _ _ Hlink).
  unfold bind at 1.
  destruct (add_quote_success md5 (request_time ctx)
              (submitted_text strip newtidbit) u (Some (strip tidbituri))
              None st1 Htext)
    as (st2 & -> & Eq2 & Ev2 & En2 & Em2 & Ew2).
  set (q0 := {| quote := submitted_text strip newtidbit |}) in Eq2.
  assert (quotes st2 !! next_id st1 = Some q0) as Hq2.
  { rewrite Eq2. apply lookup_insert_eq. }
  assert (prior_vote st2 (Some (next_id st1)) (email u) = 0) as Hprior.
  { unfold prior_vote. by rewrite Ev2, Ev1, En1, Hfresh. }
  assert (prior_vote st2 (Some (next_id st1)) (email u) ≠ 1) as Hne
    by (rewrite Hprior; lia).
  unfold bind at 1.
  destruct (set_vote (next_id st1) (Some u) 1 st2) as [out st3] eqn:E3.
  destruct (set_vote_changed _ _ _ _ _ Hq2 Hne)
    as (st3' & E3' & Eq3 & Ev3 & En3 & Em3).
  rewrite E3 in E3'. injection E3' as -> <-.
  pose proof (set_vote_voters _ _ _ _ _ _ E3) as Ew3. cbn beta iota in Ew3.
  cbn [ret].
  eexists st3, (revoted q0 0 1), _.
  split; [reflexivity|].
  split. { rewrite Eq3, Eq2, Hprior, En1, Eq1. apply insert_insert_eq. }
  split; [by rewrite En3, En2, En1|].
  split; [done|]. split; [done|]. split; [done|]. split; [done|].
  split; [done|].
  split. { by rewrite Ev3, Ev2, Ev1, En1. }
  split. { by rewrite Em3, Em2, Em1, En1. }
  assert (voters st2 !! email u
          = Some (mkVoter (count (voter_of st1 (email u)) + 1)
                    (hasVoted (voter_of st1 (email u))) true)) as Hw2.
  { rewrite Ew2. apply lookup_insert_eq. }
  unfold voter_of in Ew3 at 1 2 3. rewrite Hw2 in Ew3. cbn in Ew3.
  destruct (hasVoted (voter_of st1 (email u))) eqn:Hh.
  - rewrite Ew3, Hw2. by repeat split.
  - rewrite Ew3, lookup_insert_eq. by repeat split.
Qed.

Lemma store_consistent_kept st st' :
  entities_kept st st' → store_consistent st → store_consistent st'.
Proof.
  intros (Eq & Ev & _ & En & Hc) (H1 & H2 & H3 & H4 & H5).
  unfold store_consistent, ids_allocated. rewrite Eq, Ev, En.
  repeat split; try done. by apply Hc.
Qed.

Lemma store_consistent_fresh st :
  store_consistent st → ∀ e, votes st !! (Some (next_id st), e) = None.
Proof.
  intros (_ & H2 & _) e.
  destruct (votes st !! (Some (next_id st), e)) as [w|] eqn:E; [|done].
  destruct (H2 _ _ _ E) as (i & [= <-] & Hi). lia.
Qed.



(** X25: [MainHandler.post] rejects a text that is empty after stripping
    with a redirect to ["/"] before touching the store at all, and a
    non-empty link without scheme or network location with the error page,
    having only read the greeting: in both cases no quote, vote, voter or
    cache entry is written. *)
Theorem MainHandler_post_rejects (md5 : string → string)
    (nickname : User → string) (logout login escape strip scheme netloc
      : string → string)
    (ctx : RequestContext) (newtidbit tidbituri : string) (st : Store) :
  submitted_text strip newtidbit = ""
  ∨ (strip tidbituri ≠ ""
     ∧ (scheme (strip tidbituri) = "" ∨ netloc (strip tidbituri) = "")) →
  ∃ resp st',
    MainHandler_post md5 nickname logout login escape strip scheme netloc
      ctx newtidbit tidbituri st
    = (Returned resp, st')
    ∧ same_data st st'
    ∧ (submitted_text strip newtidbit = ""
       → resp = Redirect "/" ∧ st' = st)
    ∧ (submitted_text strip newtidbit ≠ ""
       → ∃ values,
           resp = RenderError "templates/add_quote_error.html" values
           ∧ ev_error_msg values
             = "The supplied link is not a valid absolute URI"
           ∧ ev_text values = submitted_text strip newtidbit).
Proof.
  intros Hrej. unfold MainHandler_post.
  fold (submitted_text strip newtidbit).
  destruct (decide (submitted_text strip newtidbit = "")) as [Ht|Ht].
  - exists (Redirect "/"), st. split; [done|]. split; [apply same_data_refl|].
    split; [done|]. by intros.
  - destruct Hrej as [?|[Hu Hbad]]; [done|].
    unfold bind at 1.
    destruct (get_greeting_returns nickname logout login escape ctx st)
      as (g & st1 & -> & Hs).
    assert (negb (bool_decide (strip tidbituri = ""))
            && (bool_decide (scheme (strip tidbituri) = "")
                || bool_decide (netloc (strip tidbituri) = "")) = true) as ->.
    { rewrite (bool_decide_eq_false_2 _ Hu). cbn.
      destruct Hbad as [E|E]; rewrite (bool_decide_eq_true_2 _ E);
        [done|apply orb_true_r]. }
    eexists _, st1. split; [reflexivity|]. split; [done|].
    split; [done|]. intros _. eexists. by repeat split.
Qed.

Lemma MainHandler_post_rejects_witness :
  let ctx := mkRequestContext (Some fred) false clock in
  (submitted_text sample_digest "" = ""
   ∨ (sample_digest "" ≠ ""
      ∧ (sample_digest (sample_digest "") = ""
         ∨ sample_digest (sample_digest "") = "")))
  ∧ ∃ resp st',
      MainHandler_post sample_digest email sample_digest sample_digest
        sample_digest sample_digest sample_digest sample_digest
        ctx "" "" voting_store
      = (Returned resp, st')
      ∧ same_data voting_store st'
      ∧ (submitted_text sample_digest "" = ""
         → resp = Redirect "/" ∧ st' = voting_store)
      ∧ (submitted_text sample_digest "" ≠ ""
         → ∃ values,
             resp = RenderError "templates/add_quote_error.html" values
             ∧ ev_error_msg values
               = "The supplied link is not a valid absolute URI"
             ∧ ev_text values = submitted_text sample_digest "").
Proof.
  intros ctx.
  assert (submitted_text sample_digest "" = ""
          ∨ (sample_digest "" ≠ ""
             ∧ (sample_digest (sample_digest "") = ""
                ∨ sample_digest (sample_digest "") = ""))) as H
    by (by left).
  split; [exact H|].
  exact (MainHandler_post_rejects sample_digest email sample_digest
           sample_digest sample_digest sample_digest sample_digest
           sample_digest ctx "" "" voting_store H).
Defined.

(** X26: a submission through [MainHandler.post] without a signed-in
    user, with acceptable text and link, ends in an [AttributeError]
    raised out of the handler: the handler does not check for a user, and
    [add_quote] fails on [user.email()].  Nothing is stored. *)
Theorem MainHandler_post_anonymous_raises (md5 : string → string)
    (nickname : User → string) (logout login escape strip scheme netloc
      : string → string)
    (ctx : RequestContext) (newtidbit tidbituri : string) (st : Store) :
  current_user ctx = None →
  submitted_text strip newtidbit ≠ "" →
  link_accepted scheme netloc (strip tidbituri) →
  ∃ st',
    MainHandler_post md5 nickname logout login escape strip scheme netloc
      ctx newtidbit tidbituri st
    = (Raised AttributeError, st')
    ∧ same_data st st'.
Proof.
  intros Hu Htext Hlink. unfold MainHandler_post.
  fold (submitted_text strip newtidbit). rewrite Hu.
  destruct (decide (submitted_text strip newtidbit = "")) as [e|_];
    [by destruct Htext|].
  unfold bind at 1.
  destruct (get_greeting_returns nickname logout login escape ctx st)
    as (g & st1 & -> & Hs).
  rewrite (link_accepted_check _ _ _ Hlink).
  unfold bind, add_quote, try_except_db_Error, _unique_user,
    run_in_transaction, _get_or_create_voter, user_email, bind, raise.
  cbn. eexists. split; [reflexivity|].
  destruct Hs as (? & ? & ? & ? & ?). by repeat split.
Qed.

Lemma MainHandler_post_anonymous_raises_witness :
  let ctx := mkRequestContext None false clock in
  current_user ctx = None
  ∧ submitted_text sample_digest "Overheard at lunch" ≠ ""
  ∧ link_accepted sample_digest sample_digest (sample_digest "")
  ∧ ∃ st',
      MainHandler_post sample_digest email sample_digest sample_digest
        sample_digest sample_digest sample_digest sample_digest
        ctx "Overheard at lunch" "" voting_store
      = (Raised AttributeError, st')
      ∧ same_data voting_store st'.
Proof.
  intros ctx.
  assert (current_user ctx = None) as H1 by reflexivity.
  assert (submitted_text sample_digest "Overheard at lunch" ≠ "") as H2
    by (vm_compute; congruence).
  assert (link_accepted sample_digest sample_digest (sample_digest "")) as H3
    by (by left).
  split; [exact H1|]. split; [exact H2|]. split; [exact H3|].
  exact (MainHandler_post_anonymous_raises sample_digest email
           sample_digest sample_digest sample_digest sample_digest
           sample_digest sample_digest ctx "Overheard at lunch" ""
           voting_store H1 H2 H3).
Defined.

(** X27: [VoteHandler.post] answers 403 without a signed-in user and 400
    for a [vote] parameter other than ["1"] and ["-1"], in both cases
    without touching the state; whatever the request, a vote that is in
    the store afterwards was there before or has the value [1] or [-1]:
    the handler never records any other value. *)
Theorem VoteHandler_post_votes (ctx : RequestContext) (quoteid : Z)
    (vote_ : string) (st : Store) :
  (current_user ctx = None →
   VoteHandler_post ctx quoteid vote_ st
   = (Returned (SetStatus 403 "Forbidden"), st))
  ∧ (is_Some (current_user ctx) → vote_ ≠ "1" → vote_ ≠ "-1" →
     VoteHandler_post ctx quoteid vote_ st
     = (Returned (SetStatus 400 "Bad Request"), st))
  ∧ ∀ k w,
      votes (VoteHandler_post ctx quoteid vote_ st).2 !! k = Some w →
      votes st !! k = Some w ∨ vote w = 1 ∨ vote w = -1.
Proof.
  unfold VoteHandler_post. split; [by intros ->|]. split.
  - intros [u ->] H1 H2.
    by rewrite (bool_decide_eq_false_2 _ H1), (bool_decide_eq_false_2 _ H2).
  - intros k w. destruct (current_user ctx) as [u|]; [|by left].
    destruct (bool_decide (vote_ = "1") || bool_decide (vote_ = "-1"));
      [|by left].
    set (v := if bool_decide (vote_ = "1") then 1 else -1).
    assert (v = 1 ∨ v = -1) as Hv.
    { unfold v. destruct (bool_decide _); auto. }
    unfold bind.
    destruct (set_vote_effect quoteid (Some u) v st) as [_ H].
    destruct (set_vote quoteid (Some u) v st) as [[[]|e] st1];
      cbn [fst snd ret] in *.
    + destruct H as [(_ & -> & _)|(u' & q & _ & _ & _ & _ & -> & _)];
        [by left|].
      intros Hl. destruct (decide ((Some quoteid, email u') = k)) as [<-|Hne].
      * rewrite lookup_insert_eq in Hl. injection Hl as <-. by right.
      * rewrite lookup_insert_ne in Hl by done. by left.
    + destruct H as [(_ & -> & _)|(u' & q & _ & _ & [=] & _)]. by left.
Qed.

(** ** Invariants over sequences of requests *)

Section SiteProperties.

Variable md5 : string → string.
Variable nickname : User → string.
Variables logout login escape strip scheme netloc : string → string.

Lemma MainHandler_get_kept ctx page st :
  entities_kept st
    (MainHandler_get nickname logout login escape ctx page st).2.
Proof.
  unfold MainHandler_get. unfold bind at 1.
  pose proof (get_quotes_same_data page st) as Hs.
  destruct (get_quotes page st) as [[r|e] st1]; cbn [snd] in Hs.
  - unfold bind.
    destruct (create_template_dict_returns nickname logout login escape ctx
                (current_user ctx) r.1 "Popular"
                (match r.2 with
                 | Some _ => Some ("/?p=" +:+ str (page + 1))
                 | None => None
                 end)
                (if 1 <? page then Some ("/?p=" +:+ str (page - 1))
                 else if page =? 1 then Some "/" else None) page st1)
      as (values & st' & -> & Hk & _).
    cbn. eapply entities_kept_trans; [|exact Hk]. by apply same_data_kept.
  - cbn. by apply same_data_kept.
Qed.

Lemma RecentHandler_get_kept ctx offset page st :
  entities_kept st
    (RecentHandler_get nickname logout login escape ctx offset page st).2.
Proof.
  unfold RecentHandler_get. unfold bind at 1.
  set (offset_ := if decide (offset = "") then None else Some offset).
  pose proof (get_quotes_newest_same_data offset_ st) as Hs.
  destruct (get_quotes_newest offset_ st) as [[r|e] st1]; cbn [snd] in Hs.
  - unfold bind.
    destruct (create_template_dict_returns nickname logout login escape ctx
                (current_user ctx) r.1 "Recent"
                (match r.2 with
                 | Some next =>
                     if decide (next = "") then None
                     else Some ("?offset=" +:+ next +:+ "&p="
                                +:+ str (page + 1))
                 | None => None
                 end) None page st1)
      as (values & st' & -> & Hk & _).
    cbn. eapply entities_kept_trans; [|exact Hk]. by apply same_data_kept.
  - cbn. by apply same_data_kept.
Qed.

Lemma FeedHandler_get_kept ctx section st :
  entities_kept st
    (FeedHandler_get nickname logout login escape ctx section st).2.
Proof.
  unfold FeedHandler_get.
  destruct (decide (section = "recent")) as [Hr|Hr].
  - unfold bind at 1.
    pose proof (get_quotes_newest_same_data None st) as Hs.
    destruct (get_quotes_newest None st) as [[r|e] st1]; cbn [snd] in Hs.
    + unfold bind.
      destruct (create_template_dict_returns nickname logout login escape
                  ctx None r.1 "Recent" None None 0 st1)
        as (values & st' & -> & Hk & _).
      cbn. eapply entities_kept_trans; [|exact Hk]. by apply same_data_kept.
    + cbn. by apply same_data_kept.
  - destruct (decide (section = "popular")) as [Hp|Hp];
      [|apply entities_kept_refl].
    unfold bind at 1.
    pose proof (get_quotes_same_data 0 st) as Hs.
    destruct (get_quotes 0 st) as [[r|e] st1]; cbn [snd] in Hs.
    + unfold bind.
      destruct (create_template_dict_returns nickname logout login escape
                  ctx None r.1 "Popular" None None 0 st1)
        as (values & st' & -> & Hk & _).
      cbn. eapply entities_kept_trans; [|exact Hk]. by apply same_data_kept.
    + cbn. by apply same_data_kept.
Qed.

Lemma QuoteHandler_get_kept ctx quoteid st :
  entities_kept st
    (QuoteHandler_get nickname logout login escape ctx quoteid st).2.
Proof.
  unfold QuoteHandler_get, get_quote, Quote_get_by_id. unfold bind at 1 2.
  unfold log. cbn [fst snd].
  set (st1 := {| quotes := quotes st; votes := votes st; voters := voters st;
                 next_id := next_id st; memcache := memcache st;
                 ops := ops st ++ [OpGetQuote quoteid] |}).
  assert (same_data st st1) as Hs by by repeat split.
  change (quotes st1) with (quotes st).
  destruct (quotes st !! quoteid) as [q|].
  - unfold bind.
    destruct (create_template_dict_returns nickname logout login escape ctx
                (current_user ctx) [(quoteid, q)] "Quote" None None 0 st1)
      as (values & st' & -> & Hk & _).
    cbn. eapply entities_kept_trans; [|exact Hk]. by apply same_data_kept.
  - cbn. by apply same_data_kept.
Qed.

Lemma site_consistent_kept st st' :
  entities_kept st st' → site_consistent st → site_consistent st'.
Proof.
  intros Hk (Hc & Hq & Hv). split; [by eapply store_consistent_kept|].
  destruct Hk as (Eq & Ev & _). rewrite Eq, Ev. by split.
Qed.

End SiteProperties.

Section SiteWrites.

Variable md5 : string → string.
Variable nickname : User → string.
Variables logout login escape strip scheme netloc : string → string.

Lemma MainHandler_post_consistent ctx newtidbit tidbituri st :
  store_consistent st →
  store_consistent
    (MainHandler_post md5 nickname logout login escape strip scheme netloc
       ctx newtidbit tidbituri st).2.
Proof.
  intros Hc. unfold MainHandler_post.
  fold (submitted_text strip newtidbit).
  destruct (decide (submitted_text strip newtidbit = "")) as [Ht|Ht];
    [done|].
  unfold bind at 1.
  destruct (get_greeting_returns nickname logout login escape ctx st)
    as (g & st1 & -> & Hs).
  assert (store_consistent st1) as Hc1
    by (eapply store_consistent_kept; [by apply same_data_kept|done]).
  destruct (negb (bool_decide (strip tidbituri = ""))
            && (bool_decide (scheme (strip tidbituri) = "")
                || bool_decide (netloc (strip tidbituri) = ""))); [done|].
  unfold bind at 1.
  pose proof (add_quote_consistent md5 (request_time ctx)
                (submitted_text strip newtidbit) (current_user ctx)
                (Some (strip tidbituri)) None st1 Hc1) as Hc2.
  destruct (add_quote md5 (request_time ctx)
              (submitted_text strip newtidbit) (current_user ctx)
              (Some (strip tidbituri)) None st1) as [[[id_|]|e] st2];
    cbn [snd] in Hc2; [|done|done].
  unfold bind.
  pose proof (set_vote_consistent id_ (current_user ctx) 1 st2 Hc2) as Hc3.
  by destruct (set_vote id_ (current_user ctx) 1 st2) as [[[]|e] st3].
Qed.

Lemma MainHandler_post_cases ctx newtidbit tidbituri st :
  same_data st
    (MainHandler_post md5 nickname logout login escape strip scheme netloc
       ctx newtidbit tidbituri st).2
  ∨ ∃ u, current_user ctx = Some u
         ∧ submitted_text strip newtidbit ≠ ""
         ∧ link_accepted scheme netloc (strip tidbituri).
Proof.
  destruct (decide (submitted_text strip newtidbit = "")) as [Ht|Ht].
  { left. unfold MainHandler_post. fold (submitted_text strip newtidbit).
    rewrite decide_True by done. apply same_data_refl. }
  destruct (negb (bool_decide (strip tidbituri = ""))
            && (bool_decide (scheme (strip tidbituri) = "")
                || bool_decide (netloc (strip tidbituri) = ""))) eqn:Hchk.
  { left. unfold MainHandler_post. fold (submitted_text strip newtidbit).
    rewrite decide_False by done. unfold bind at 1.
    destruct (get_greeting_returns nickname logout login escape ctx st)
      as (g & st1 & -> & Hs).
    by rewrite Hchk. }
  assert (link_accepted scheme netloc (strip tidbituri)) as Hlink.
  { unfold link_accepted.
    destruct (decide (strip tidbituri = "")) as [?|Hu]; [by left|right].
    rewrite (bool_decide_eq_false_2 _ Hu) in Hchk. cbn in Hchk.
    apply orb_false_elim in Hchk as [H1 H2].
    apply bool_decide_eq_false in H1, H2. done. }
  destruct (current_user ctx) as [u|] eqn:Hu; [right; by exists u|].
  left. unfold MainHandler_post. fold (submitted_text strip newtidbit).
  rewrite Hu, decide_False by done. unfold bind at 1.
  destruct (get_greeting_returns nickname logout login escape ctx st)
    as (g & st1 & -> & Hs).
  rewrite Hchk.
  unfold bind, add_quote, try_except_db_Error, _unique_user,
    run_in_transaction, _get_or_create_voter, user_email, bind, raise.
  cbn. destruct Hs as (? & ? & ? & ? & ?). by repeat split.
Qed.

Lemma MainHandler_post_site ctx newtidbit tidbituri st :
  site_consistent st →
  site_consistent
    (MainHandler_post md5 nickname logout login escape strip scheme netloc
       ctx newtidbit tidbituri st).2.
Proof.
  intros Hsite.
  destruct (MainHandler_post_cases ctx newtidbit tidbituri st)
    as [Hs|(u & Hu & Ht & Hlink)].
  { eapply site_consistent_kept; [|exact Hsite]. by apply same_data_kept. }
  pose proof (MainHandler_post_consistent ctx newtidbit tidbituri st
                (proj1 Hsite)) as Hc'.
  destruct Hsite as (Hc & Hq & Hv).
  destruct (MainHandler_post_accepted md5 nickname logout login escape strip
              scheme netloc ctx newtidbit tidbituri st u Hu Ht Hlink
              (store_consistent_fresh st Hc))
    as (st' & q & w & E & Eq & _ & Etext & _ & Ecr & _ & Hrk & Ev & _).
  rewrite E in Hc' |- *. cbn [snd] in Hc' |- *.
  split; [exact Hc'|]. rewrite Eq, Ev. split.
  - intros i q' Hi. destruct (decide (i = next_id st)) as [->|Hne].
    + rewrite lookup_insert_eq in Hi. injection Hi as <-.
      split; [exact Hrk|]. split; [by rewrite Etext|].
      split; [rewrite Etext; apply submitted_text_length|].
      exists u. split; [exact Ecr|]. rewrite lookup_insert_eq. by eexists.
    + rewrite lookup_insert_ne in Hi by done.
      destruct (Hq i q' Hi) as (? & ? & ? & u' & ? & Hsome).
      repeat (split; [done|]). exists u'. split; [done|].
      apply lookup_insert_is_Some'. by right.
  - intros k w' Hk. destruct (decide (k = (Some (next_id st), email u)))
      as [->|Hne].
    + rewrite lookup_insert_eq in Hk. injection Hk as <-. by left.
    + rewrite lookup_insert_ne in Hk by done. by eapply Hv.
Qed.

Lemma VoteHandler_post_site ctx quoteid vote_ st :
  site_consistent st →
  site_consistent (VoteHandler_post ctx quoteid vote_ st).2.
Proof.
  intros Hsite. unfold VoteHandler_post.
  destruct (current_user ctx) as [u|]; [|done].
  destruct (bool_decide (vote_ = "1") || bool_decide (vote_ = "-1"));
    [|done].
  set (v := if bool_decide (vote_ = "1") then 1 else -1).
  assert (v = 1 ∨ v = -1) as Hvv
    by (unfold v; destruct (bool_decide (vote_ = "1")); [by left|by right]).
  assert ((bind (set_vote quoteid (Some u) v) (λ _, ret EmptyResponse) st).2
          = (set_vote quoteid (Some u) v st).2) as ->.
  { unfold bind.
    by destruct (set_vote quoteid (Some u) v st) as [[[]|e] st1]. }
  destruct Hsite as (Hc & Hq & Hv).
  split; [by apply set_vote_consistent|].
  destruct (set_vote_effect quoteid (Some u) v st)
    as (_ & [(Eq & Ev & _)|(u' & q & Hu' & Hl & _ & Eq & Ev & _)]).
  { rewrite Eq, Ev. by split. }
  rewrite Eq, Ev. split.
  - intros i q' Hi. destruct (decide (i = quoteid)) as [->|Hne].
    + rewrite lookup_insert_eq in Hi. injection Hi as <-.
      destruct (Hq quoteid q Hl) as (_ & ? & ? & c & ? & Hsome).
      split; [reflexivity|]. repeat (split; [done|]).
      exists c. split; [done|]. apply lookup_insert_is_Some'. by right.
    + rewrite lookup_insert_ne in Hi by done.
      destruct (Hq i q' Hi) as (? & ? & ? & c & ? & Hsome).
      repeat (split; [done|]). exists c. split; [done|].
      apply lookup_insert_is_Some'. by right.
  - intros k w' Hk. destruct (decide (k = (Some quoteid, email u')))
      as [->|Hne].
    + rewrite lookup_insert_eq in Hk. by injection Hk as <-.
    + rewrite lookup_insert_ne in Hk by done. by eapply Hv.
Qed.

Lemma QuoteHandler_post_site ctx quoteid st :
  site_consistent st →
  site_consistent (QuoteHandler_post ctx quoteid st).2.
Proof.
  intros (Hc & Hq & Hv). unfold QuoteHandler_post.
  assert ((bind (del_quote (current_user_admin ctx) quoteid
                   (current_user ctx)) (λ _, ret (Redirect "/")) st).2
          = (del_quote (current_user_admin ctx) quoteid (current_user ctx)
               st).2) as ->.
  { unfold bind.
    by destruct (del_quote (current_user_admin ctx) quoteid
                   (current_user ctx) st) as [[[]|e] st1]. }
  split; [by apply del_quote_consistent|].
  destruct (del_quote_effect (current_user_admin ctx) quoteid
              (current_user ctx) st) as (Ev & _ & _ & _ & [Eq|Eq]);
    rewrite Eq, Ev; split; try done.
  intros i q Hi. apply lookup_delete_Some in Hi as [_ Hi]. by apply Hq.
Qed.

Lemma serve_site ctx r st :
  site_consistent st →
  site_consistent
    (serve md5 nickname logout login escape strip scheme netloc ctx r st).2.
Proof.
  intros Hsite. destruct r; cbn [serve].
  - eapply site_consistent_kept; [apply MainHandler_get_kept|done].
  - by apply MainHandler_post_site.
  - by apply VoteHandler_post_site.
  - eapply site_consistent_kept; [apply RecentHandler_get_kept|done].
  - eapply site_consistent_kept; [apply FeedHandler_get_kept|done].
  - by apply QuoteHandler_post_site.
  - eapply site_consistent_kept; [apply QuoteHandler_get_kept|done].
Qed.

End SiteWrites.

(** X28: whatever sequence of requests the site serves from an empty
    datastore, each in its own request context (signed-in user or none,
    administrator or not, any parameters) and whether or not a handler
    raises, the stored data stay consistent: every stored quote has a rank
    key that matches its score, a text of 1 to 500 characters, a vote
    total equal to the sum of the stored votes on it, and a creator whose
    own vote on it is stored; every stored vote is [1] or [-1]; and the
    vote cache agrees with the stored votes. *)
Theorem site_requests_consistent (md5 : string → string)
    (nickname : User → string)
    (logout login escape strip scheme netloc : string → string)
    (rs : list (RequestContext * WebRequest)) :
  site_consistent
    (run_site md5 nickname logout login escape strip scheme netloc rs
       empty_store).
Proof.
  assert (site_consistent empty_store) as H0.
  { split; [apply store_consistent_empty|].
    split; intros ? ? Hl; cbn in Hl; by rewrite lookup_empty in Hl. }
  revert H0. generalize empty_store.
  induction rs as [|[ctx r] rs IH]; intros st Hsite; [done|].
  cbn [run_site foldl]. apply IH. by apply serve_site.
Qed.
